(** * mtg-counterplay: the Scryfall utilities and the catalog client

    A shallow embedding of [src/lib/scryfall.ts] (the mana evaluator) and of
    the server-side catalog client ([fetchSets], [fetchInstantsFromSet] and
    its three helper queries), followed by the properties of the
    specification that concern them.

    Conventions.
    - JavaScript strings are [string]; arrays are [list]; [Set<string>] is
      [gset string]; [Record<string, string>] is [gmap string string].
    - A [number] is a binary64 double.  [cmc] is a rational that binary64
      represents ([Double]); an integer-valued double is a [Z], and the
      difference of two of them is rounded as binary64 rounds it
      ([Binary64.roundInteger]); [NaN] is [None]; a mana-value target is a
      rational; counters and HTTP statuses are [Z].
    - Optional fields ([keywords?], [card_faces?], ...) are [option]. *)

From Stdlib Require Import ZArith QArith Qround Ascii String List Lia Sorted Permutation.
From stdpp Require Import base decidable option list gmap strings sorting.

Local Open Scope string_scope.
Local Open Scope list_scope.

(** ** JavaScript string primitives used by the source *)

Module JS.

(** [s.length] *)
Definition len (s : string) : Z := Z.of_nat (String.length s).

(** Clamp a relative index the way [String.prototype.slice] does. *)
Definition clamp (n : Z) (i : Z) : Z :=
  if (i <? 0)%Z then Z.max (n + i) 0 else Z.min i n.

(** [s.slice(start, stop)] *)
Definition slice (start stop : Z) (s : string) : string :=
  let from := clamp (len s) start in
  let to := clamp (len s) stop in
  String.substring (Z.to_nat from) (Z.to_nat (to - from)) s.

(** [s.startsWith(p)] *)
Fixpoint startsWith (p s : string) : bool :=
  match p, s with
  | EmptyString, _ => true
  | String a p', String b s' => Ascii.eqb a b && startsWith p' s'
  | String _ _, EmptyString => false
  end.

(** [s.includes(sub)] *)
Fixpoint includes (sub s : string) : bool :=
  startsWith sub s ||
  match s with
  | EmptyString => false
  | String _ s' => includes sub s'
  end.

(** [s.endsWith(p)]: [p] occupies the last [p.length] positions of [s]. *)
Definition endsWith (p s : string) : bool :=
  (String.length p <=? String.length s)%nat &&
  String.eqb (String.substring (String.length s - String.length p) (String.length p) s) p.

(** [s.split(sep)] for a separator of one character. *)
Fixpoint split (sep : ascii) (s : string) : list string :=
  match s with
  | EmptyString => [EmptyString]
  | String c s' =>
      if Ascii.eqb c sep then EmptyString :: split sep s'
      else match split sep s' with
           | [] => [String c EmptyString]
           | p :: ps => String c p :: ps
           end
  end.

(** [arr.includes(x)] on an array of strings. *)
Definition arr_includes (x : string) (arr : list string) : bool :=
  existsb (String.eqb x) arr.

(** [tokens.join('')] *)
Definition join (tokens : list string) : string :=
  fold_right String.append EmptyString tokens.

(** [arr.join(sep)] *)
Fixpoint joinWith (sep : string) (arr : list string) : string :=
  match arr with
  | [] => EmptyString
  | [a] => a
  | a :: rest => a +:+ sep +:+ joinWith sep rest
  end.

Definition is_digit (c : ascii) : bool :=
  let n := nat_of_ascii c in (48 <=? n)%nat && (n <=? 57)%nat.

Fixpoint all_digits (s : string) : bool :=
  match s with
  | EmptyString => true
  | String c s' => is_digit c && all_digits s'
  end.

(** [/^\d+$/.test(s)] *)
Definition test_digits (s : string) : bool :=
  match s with
  | EmptyString => false
  | String _ _ => all_digits s
  end.

(** [/^[WUBRG]$/.test(s)] *)
Definition test_color (s : string) : bool :=
  match s with
  | String c EmptyString =>
      Ascii.eqb c "W" || Ascii.eqb c "U" || Ascii.eqb c "B" ||
      Ascii.eqb c "R" || Ascii.eqb c "G"
  | _ => false
  end.

End JS.

(** ** JavaScript numbers

    The integers that binary64 represents are those of at most 53
    significant bits (below [2 ^ 1024]).  [roundInteger x] is the double
    nearest to the integer [x], ties going to the even significand: the
    result of an addition or subtraction of integer-valued doubles whose
    exact result is [x].  No operation of the source can exceed the range
    of the finite doubles: it subtracts a symbol count from a finite
    double, and one time value from another. *)

Module Binary64.

(** For [0 <= m]. *)
Definition roundMagnitude (m : Z) : Z :=
  let e := (Z.log2 m - 52)%Z in
  if (e <=? 0)%Z then m
  else
    let q := (m / 2 ^ e)%Z in
    let r := (m mod 2 ^ e)%Z in
    let half := (2 ^ (e - 1))%Z in
    let up := if (r <? half)%Z then 0%Z
              else if (r =? half)%Z then (q mod 2)%Z else 1%Z in
    ((q + up) * 2 ^ e)%Z.

Definition roundInteger (x : Z) : Z :=
  if (x <? 0)%Z then (- roundMagnitude (- x))%Z else roundMagnitude x.

(** The integer [n] is a finite double. *)
Definition isDoubleZ (n : Z) : bool :=
  (roundInteger n =? n)%Z && (Z.abs n <? 2 ^ 1024)%Z.

(** [powerOfTwo d] is [Some k] when [d = 2 ^ k]. *)
Fixpoint powerOfTwo (d : positive) : option Z :=
  match d with
  | xH => Some 0%Z
  | xO d' => option_map Z.succ (powerOfTwo d')
  | xI _ => None
  end.

(** The rational [q] is a finite double: an integer that is one, or an
    odd multiple [n * 2 ^ (- k)] with [n] of at most 53 bits and [k] at
    most 1074. *)
Definition isDouble (q : Q) : bool :=
  let r := Qred q in
  match Qden r with
  | xH => isDoubleZ (Qnum r)
  | d =>
      match powerOfTwo d with
      | Some k => (k <=? 1074)%Z && (Z.abs (Qnum r) <? 2 ^ 53)%Z
      | None => false
      end
  end.

End Binary64.

(** A finite double, by its value. *)
Record Double := {
  dvalue :> Q;
  dfinite : Binary64.isDouble dvalue = true
}.

(** The double of value [q]; zero when [q] is no double. *)
Definition double (q : Q) : Double :=
  match Binary64.isDouble q as b return Binary64.isDouble q = b -> Double with
  | true => fun H => {| dvalue := q; dfinite := H |}
  | false => fun _ => {| dvalue := 0; dfinite := eq_refl |}
  end eq_refl.

(** ** The regular expression [/\{[^}]+\}/g]

    [body_close] matches [[^}]+\}] at the head of its argument: the greedy
    [+] first tries to take one more character and, when the rest of the
    pattern then fails, gives it back and expects the closing brace.  It
    returns the characters matched by the class and what follows the match. *)

Definition close_brace : ascii := "}"%char.
Definition open_brace : ascii := "{"%char.

Fixpoint body_close (s : string) : option (string * string) :=
  match s with
  | EmptyString => None
  | String c r =>
      if Ascii.eqb c close_brace then None
      else match body_close r with
           | Some (b, rest) => Some (String c b, rest)
           | None =>
               match r with
               | String d rest =>
                   if Ascii.eqb d close_brace
                   then Some (String c EmptyString, rest) else None
               | EmptyString => None
               end
           end
  end.

(** One attempt of the whole pattern at the head of [s]: the matched text. *)
Definition match_here (s : string) : option string :=
  match s with
  | String c r =>
      if Ascii.eqb c open_brace then
        match body_close r with
        | Some (b, _) =>
            Some (String open_brace (b +:+ String close_brace EmptyString))
        | None => None
        end
      else None
  | EmptyString => None
  end.

(** The global scan behind [String.prototype.match] with the [g] flag: the
    pattern is tried at every index from [lastIndex] on; after a match
    [lastIndex] is the end of the match.  [skip] counts the characters that
    still lie before [lastIndex]. *)
Fixpoint match_all (skip : nat) (s : string) : list string :=
  match s with
  | EmptyString => []
  | String _ r =>
      match skip with
      | S k => match_all k r
      | O =>
          match match_here s with
          | Some tok => tok :: match_all (String.length tok - 1) r
          | None => match_all 0 r
          end
      end
  end.

(** ** Data model of [src/lib/scryfall.ts] *)

Record ImageUris := {
  small : string;
  normal : string;
  large : string;
  art_crop : string
}.

Record CardFace := {
  face_name : string;
  face_mana_cost : string;
  face_oracle_text : string;
  face_image_uris : option ImageUris
}.

Record ScryfallSet := {
  set_id : string;
  set_code : string;
  set_name_ : string;
  set_type : string;
  released_at : string;
  card_count : Z;
  icon_svg_uri : string;
  set_scryfall_uri : string
}.

Record ScryfallCard := {
  id : string;
  name : string;
  mana_cost : string;
  cmc : Double;
  type_line : string;
  oracle_text : string;
  colors : list string;
  color_identity : list string;
  keywords : option (list string);
  rarity : string;
  set : string;
  set_name : string;
  image_uris : option ImageUris;
  card_faces : option (list CardFace);
  scryfall_uri : string;
  legalities : gmap string string;
  isCounterspell : option bool
}.

Record ScryfallListResponse (T : Type) := {
  object : string;
  total_cards : option Z;
  has_more : bool;
  next_page : option string;
  data : list T
}.
Arguments object {T}.
Arguments total_cards {T}.
Arguments has_more {T}.
Arguments next_page {T}.
Arguments data {T}.

(** ** The mana evaluator *)

(** [manaCost.match(/\{[^}]+\}/g) || []] *)
Definition parseManaSymbols (manaCost : string) : list string :=
  match_all 0 manaCost.

Definition getCardColors (card : ScryfallCard) : list string :=
  if (0 <? Z.of_nat (List.length (colors card)))%Z then colors card
  else if (0 <? Z.of_nat (List.length (color_identity card)))%Z then color_identity card
  else ["C"].

(** The first lines of [countPhyrexianMana] and [isCardCastableWithColors]:
    the card's own cost, or the cost of its first face when the card's own
    is empty.  The result is empty when neither exists. *)
Definition resolveManaCost (card : ScryfallCard) : string :=
  if negb (String.eqb (mana_cost card) "") then mana_cost card
  else match card_faces card with
       | Some (face0 :: _) => face_mana_cost face0
       | _ => mana_cost card
       end.

(** The body of the [for] loop of [countPhyrexianMana]. *)
Fixpoint countPhyrexianLoop (symbols : list string) (phyrexianCount : Z) : Z :=
  match symbols with
  | [] => phyrexianCount
  | symbol :: rest =>
      let symbolContent := JS.slice 1 (-1) symbol in
      if JS.includes "/P" symbolContent
      then countPhyrexianLoop rest (phyrexianCount + 1)
      else countPhyrexianLoop rest phyrexianCount
  end.

Definition countPhyrexianMana (card : ScryfallCard) : Z :=
  let manaCost := resolveManaCost card in
  if String.eqb manaCost "" then 0%Z
  else countPhyrexianLoop (parseManaSymbols manaCost) 0.

Definition cardMatchesManaValue (card : ScryfallCard) (targetManaValue : Q) : bool :=
  let cmc := Qfloor (cmc card) in
  let phyrexianCount := countPhyrexianMana card in
  let minMana := Binary64.roundInteger (cmc - phyrexianCount) in
  let maxMana := cmc in
  if Qeq_bool targetManaValue 10 then (10 <=? cmc)%Z
  else Qle_bool (inject_Z minMana) targetManaValue &&
       Qle_bool targetManaValue (inject_Z maxMana).

(** What one iteration of the [for] loop of [isCardCastableWithColors] does
    with a symbol: [true] stands for [continue] (or falling out of the
    body), [false] for [return false]. *)
Definition symbolPayable (availableColors : list string) (symbol : string) : bool :=
  let symbolContent := JS.slice 1 (-1) symbol in
  if JS.test_digits symbolContent || String.eqb symbolContent "X" then true
  else if JS.includes "/" symbolContent then
    let parts := JS.split "/" symbolContent in
    let colorParts := List.filter JS.test_color parts in
    if (0 <? Z.of_nat (List.length colorParts))%Z then
      let canPayHybrid :=
        existsb (fun color => JS.arr_includes color availableColors) colorParts in
      if negb canPayHybrid then false else true
    else true
  else if JS.endsWith "P" symbolContent &&
          JS.test_color (JS.slice 0 (-2) symbolContent) then true
  else if JS.test_color symbolContent then
    if negb (JS.arr_includes symbolContent availableColors) then false else true
  else true.

Fixpoint castableLoop (availableColors : list string) (symbols : list string) : bool :=
  match symbols with
  | [] => true
  | symbol :: rest =>
      if symbolPayable availableColors symbol
      then castableLoop availableColors rest
      else false
  end.

Definition isCardCastableWithColors (card : ScryfallCard)
    (availableColors : list string) : bool :=
  let manaCost := resolveManaCost card in
  if String.eqb manaCost "" then true
  else castableLoop availableColors (parseManaSymbols manaCost).


(** ** Images of multi-faced cards *)

(** The type ['small' | 'normal' | 'large'] of the parameter [size]. *)
Inductive ImageSize := SizeSmall | SizeNormal | SizeLarge.

(** [uris[size]] *)
Definition imageOfSize (uris : ImageUris) (size : ImageSize) : string :=
  match size with
  | SizeSmall => small uris
  | SizeNormal => normal uris
  | SizeLarge => large uris
  end.

(** [size] is [None] when the caller leaves the argument out; the default
    is ['normal']. *)
Definition getCardImageUrl (card : ScryfallCard) (size : option ImageSize) : string :=
  let size := match size with Some given => given | None => SizeNormal end in
  match image_uris card with
  | Some uris => imageOfSize uris size
  | None =>
      match card_faces card with
      | Some (face0 :: _) =>
          match face_image_uris face0 with
          | Some uris => imageOfSize uris size
          | None => ""
          end
      | _ => ""
      end
  end.

(** ** Oracle text of multi-faced cards *)

Definition newline : string := String (ascii_of_nat 10) EmptyString.

(** The separator ['\n\n// \n\n'] between the texts of the faces. *)
Definition faceSeparator : string :=
  newline +:+ newline +:+ "// " +:+ newline +:+ newline.

Definition getOracleText (card : ScryfallCard) : string :=
  if negb (String.eqb (oracle_text card) "") then oracle_text card
  else match card_faces card with
       | Some faces => JS.joinWith faceSeparator (List.map face_oracle_text faces)
       | None => ""
       end.

(** ** The catalog client

    The client awaits [fetch] and either returns, throws, or keeps
    paginating.  A computation threads the state of the outside world (the
    remote service and the transport) and ends in an [Outcome]; [Unsettled]
    is the outcome of a pagination loop that has not finished within the
    number of iterations it was given. *)

Inductive Exn :=
  | Error (message : string)
  | TransportFailure (reason : string).

Inductive Outcome (A : Type) :=
  | Returned (a : A)
  | Thrown (e : Exn)
  | Unsettled.
Arguments Returned {A}.
Arguments Thrown {A}.
Arguments Unsettled {A}.

Definition Async (World A : Type) : Type := World -> Outcome A * World.

Definition ret {World A} (a : A) : Async World A := fun w => (Returned a, w).

Definition throw {World A} (e : Exn) : Async World A := fun w => (Thrown e, w).

Definition unsettled {World A} : Async World A := fun w => (Unsettled, w).

Definition bind {World A B} (m : Async World A) (k : A -> Async World B)
    : Async World B :=
  fun w =>
    match m w with
    | (Returned a, w') => k a w'
    | (Thrown e, w') => (Thrown e, w')
    | (Unsettled, w') => (Unsettled, w')
    end.

Notation "'let*' x ':=' m 'in' k" := (bind m (fun x => k))
  (at level 10, x name, m at level 100, k at level 200).

(** How a [while] loop whose body contains a [return] statement ends. *)
Inductive LoopExit (R S : Type) :=
  | ReturnStmt (r : R)
  | LoopDone (s : S).
Arguments ReturnStmt {R S}.
Arguments LoopDone {R S}.

(** The [Response] of the Fetch API, as far as the client looks at it.
    [response.json()] is cast by the client to a list of sets or to a list
    of cards; the two fields are the body read under either cast. *)
Record Response := {
  ok : bool;
  status : Z;
  json_sets : ScryfallListResponse ScryfallSet;
  json_cards : ScryfallListResponse ScryfallCard
}.

(** [while (url)]: [null] and the empty string end the loop. *)
Definition truthy (url : option string) : option string :=
  match url with
  | Some u => if String.eqb u "" then None else Some u
  | None => None
  end.

(** [data.has_more ? data.next_page ?? null : null] *)
Definition nextUrl {T} (body : ScryfallListResponse T) : option string :=
  if has_more body then next_page body else None.

(** [{ ...card, isCounterspell: allCounterspellIds.has(card.id) }] *)
Definition markCounterspell (allCounterspellIds : gset string)
    (card : ScryfallCard) : ScryfallCard :=
  {| id := id card;
     name := name card;
     mana_cost := mana_cost card;
     cmc := cmc card;
     type_line := type_line card;
     oracle_text := oracle_text card;
     colors := colors card;
     color_identity := color_identity card;
     keywords := keywords card;
     rarity := rarity card;
     set := set card;
     set_name := set_name card;
     image_uris := image_uris card;
     card_faces := card_faces card;
     scryfall_uri := scryfall_uri card;
     legalities := legalities card;
     isCounterspell := Some (bool_decide (id card ∈ allCounterspellIds)) |}.

(** [data.data.forEach(card => ids.add(card.id))] *)
Definition addIds (ids : gset string) (cards : list ScryfallCard) : gset string :=
  foldl (fun ids card => ids ∪ {[ id card ]}) ids cards.

(** [x - y] on numbers that are time values or [NaN]. *)
Definition subtractTimes (x y : option Z) : option Z :=
  match x, y with
  | Some tx, Some ty => Some (Binary64.roundInteger (tx - ty))
  | _, _ => None
  end.

(** [Array.prototype.sort(compare)]: a stable sort.  The comparator returns
    a number or [NaN]; the sort reads [NaN] as [+0], and a value above zero
    puts [b] in front of [a].  When the comparator is a consistent
    ordering of the elements, ECMAScript fixes the result, and this is it.
    When it is not (a [NaN] among the keys can make it so), ECMAScript
    leaves the order to the engine; the result is then still a
    rearrangement of the elements, and the order below is the one of an
    insertion from the right. *)
Section Sort.
Context {T : Type} (compare : T -> T -> option Z).

Definition sortCompare (a b : T) : Z :=
  match compare a b with
  | Some v => v
  | None => 0%Z
  end.

Fixpoint sortInsert (a : T) (sorted : list T) : list T :=
  match sorted with
  | [] => [a]
  | b :: rest =>
      if (0 <? sortCompare a b)%Z then b :: sortInsert a rest
      else a :: b :: rest
  end.

Definition sort (arr : list T) : list T := fold_right sortInsert [] arr.
End Sort.

Definition validTypes : list string :=
  ["expansion"; "core"; "masters"; "draft_innovation"; "funny"].

Section Client.
Context {World : Type}.

(** The platform: [encodeURIComponent], [new Date(s).getTime()], which is
    [None] for the [NaN] of a string that is no date, on the
    date strings of the service, and [fetch], which resolves to a
    response or rejects with a transport failure. *)
Variable encodeURIComponent : string -> string.
Variable getTime : string -> option Z.
Variable fetch : string -> World -> (Response + string) * World.

Definition awaitFetch (url : string) : Async World Response :=
  fun w =>
    match fetch url w with
    | (inl response, w') => (Returned response, w')
    | (inr reason, w') => (Thrown (TransportFailure reason), w')
    end.

Definition fetchSets : Async World (list ScryfallSet) :=
  let* response := awaitFetch "https://api.scryfall.com/sets" in
  if negb (ok response) then throw (Error "Failed to fetch sets")
  else
    let body := json_sets response in
    ret (sort
           (fun a b =>
              subtractTimes (getTime (released_at b)) (getTime (released_at a)))
           (List.filter
              (fun set => JS.arr_includes (set_type set) validTypes &&
                          (0 <? card_count set)%Z)
              (data body))).

(** The pagination loop of [fetchInstantsFromSet] and of
    [fetchSpecialGuestsFromSet]; the two differ in the message of the
    error only. *)
Fixpoint paginateCards (failure : string) (fuel : nat) (url : option string)
    (allCards : list ScryfallCard)
    : Async World (LoopExit (list ScryfallCard) (list ScryfallCard)) :=
  match truthy url with
  | None => ret (LoopDone allCards)
  | Some u =>
      match fuel with
      | O => unsettled
      | S fuel' =>
          let* response := awaitFetch u in
          if negb (ok response) then
            if (status response =? 404)%Z then ret (ReturnStmt [])
            else throw (Error failure)
          else
            let body := json_cards response in
            paginateCards failure fuel' (nextUrl body) (allCards ++ data body)
      end
  end.

(** The pagination loop of [fetchCounterspellIds] and of
    [fetchSpecialGuestsCounterspellIds]. *)
Fixpoint paginateIds (failure : string) (fuel : nat) (url : option string)
    (ids : gset string)
    : Async World (LoopExit (gset string) (gset string)) :=
  match truthy url with
  | None => ret (LoopDone ids)
  | Some u =>
      match fuel with
      | O => unsettled
      | S fuel' =>
          let* response := awaitFetch u in
          if negb (ok response) then
            if (status response =? 404)%Z then ret (ReturnStmt ids)
            else throw (Error failure)
          else
            let body := json_cards response in
            paginateIds failure fuel' (nextUrl body) (addIds ids (data body))
      end
  end.

Definition searchUrl (query : string) : string :=
  "https://api.scryfall.com/cards/search?q=" +:+ query.

Definition instantsQuery (setCode : string) : string :=
  encodeURIComponent ("set:" +:+ setCode +:+ " (type:instant OR keyword:flash)").

Definition counterspellQuery (setCode : string) : string :=
  encodeURIComponent
    ("set:" +:+ setCode +:+ " (type:instant OR keyword:flash) oracletag:counterspell").

Definition specialGuestsQuery (setCode : string) : string :=
  encodeURIComponent
    ("set:spg date:" +:+ setCode +:+ " (type:instant OR keyword:flash)").

Definition specialGuestsCounterspellQuery (setCode : string) : string :=
  encodeURIComponent
    ("set:spg date:" +:+ setCode +:+
     " (type:instant OR keyword:flash) oracletag:counterspell").

Definition instantsUrl (setCode : string) : string :=
  searchUrl (instantsQuery setCode) +:+ "&order=cmc".

Definition counterspellUrl (setCode : string) : string :=
  searchUrl (counterspellQuery setCode).

Definition specialGuestsUrl (setCode : string) : string :=
  searchUrl (specialGuestsQuery setCode) +:+ "&order=cmc".

Definition specialGuestsCounterspellUrl (setCode : string) : string :=
  searchUrl (specialGuestsCounterspellQuery setCode).

Definition fetchCounterspellIds (fuel : nat) (setCode : string)
    : Async World (gset string) :=
  let* exit :=
    paginateIds "Failed to fetch counterspells" fuel
      (Some (counterspellUrl setCode)) ∅ in
  match exit with
  | ReturnStmt ids => ret ids
  | LoopDone ids => ret ids
  end.

Definition fetchSpecialGuestsFromSet (fuel : nat) (setCode : string)
    : Async World (list ScryfallCard) :=
  let* exit :=
    paginateCards "Failed to fetch Special Guests cards" fuel
      (Some (specialGuestsUrl setCode)) [] in
  match exit with
  | ReturnStmt cards => ret cards
  | LoopDone allCards => ret allCards
  end.

Definition fetchSpecialGuestsCounterspellIds (fuel : nat) (setCode : string)
    : Async World (gset string) :=
  let* exit :=
    paginateIds "Failed to fetch Special Guests counterspells" fuel
      (Some (specialGuestsCounterspellUrl setCode)) ∅ in
  match exit with
  | ReturnStmt ids => ret ids
  | LoopDone ids => ret ids
  end.

Definition fetchInstantsFromSet (fuel : nat) (setCode : string)
    : Async World (list ScryfallCard) :=
  let* exit :=
    paginateCards "Failed to fetch cards" fuel
      (Some (instantsUrl setCode)) [] in
  match exit with
  | ReturnStmt cards => ret cards
  | LoopDone allCards =>
      let* spgCards := fetchSpecialGuestsFromSet fuel setCode in
      let allCards := allCards ++ spgCards in
      let* counterspellIds := fetchCounterspellIds fuel setCode in
      let* spgCounterspellIds := fetchSpecialGuestsCounterspellIds fuel setCode in
      let allCounterspellIds := counterspellIds ∪ spgCounterspellIds in
      ret (List.map (markCounterspell allCounterspellIds) allCards)
  end.

(** *** Runs of a pagination loop *)

(** [Pages url w pages url' w']: starting with [url] in the world [w], the
    loop receives the successful responses [pages], one per iteration, and
    stands at [url'] in the world [w'] afterwards. *)
Inductive Pages : option string -> World -> list Response ->
                  option string -> World -> Prop :=
  | Pages_nil url w : Pages url w [] url w
  | Pages_cons url u w page w1 pages url' w' :
      truthy url = Some u ->
      fetch u w = (inl page, w1) ->
      ok page = true ->
      Pages (nextUrl (json_cards page)) w1 pages url' w' ->
      Pages url w (page :: pages) url' w'.

(** The query that starts at [start] in the world [w] reads the successful
    [pages] and then receives the non-success response [response]. *)
Definition Refused (start : option string) (w : World) (pages : list Response)
    (response : Response) (w' : World) : Prop :=
  exists url u w1,
    Pages start w pages url w1 /\ truthy url = Some u /\
    fetch u w1 = (inl response, w') /\ ok response = false.

Definition pageCards (pages : list Response) : list ScryfallCard :=
  flat_map (fun page => data (json_cards page)) pages.

(** Some query, started in some world, was refused with a status other
    than 404, and the refusal left the world [w']. *)
Definition RefusedOtherwise (w' : World) : Prop :=
  exists start w0 pages response,
    Refused start w0 pages response w' /\ status response <> 404%Z.

End Client.

(** ** Vocabulary of the properties *)

(** A character sequence the class [[^}]] accepts throughout. *)
Fixpoint no_close (s : string) : bool :=
  match s with
  | EmptyString => true
  | String c r => negb (Ascii.eqb c close_brace) && no_close r
  end.

Definition closing : string := String close_brace EmptyString.

(** One or more characters other than the closing brace, then a closing
    brace, then nothing. *)
Fixpoint bodyThenClose (s : string) : bool :=
  match s with
  | EmptyString => false
  | String c rest =>
      negb (Ascii.eqb c close_brace) &&
      (String.eqb rest closing || bodyThenClose rest)
  end.

(** A bracketed symbol: an opening brace, one or more characters other than
    the closing brace, a closing brace. *)
Definition isSymbol (tok : string) : bool :=
  match tok with
  | EmptyString => false
  | String c rest => Ascii.eqb c open_brace && bodyThenClose rest
  end.

(** The comparator of [fetchSets], for any key in place of the time of the
    release date: the later date first. *)
Definition laterFirst {T : Type} (key : T -> option Z) (a b : T) : option Z :=
  subtractTimes (key b) (key a).

(** Both keys are times, and the one of [b] is not the later. *)
Definition notEarlier {T : Type} (key : T -> option Z) (a b : T) : Prop :=
  match key a, key b with
  | Some ta, Some tb => (tb <= ta)%Z
  | _, _ => False
  end.

(** The key is the time [date]. *)
Definition timeIs (date : Z) (time : option Z) : bool :=
  match time with
  | Some t => (t =? date)%Z
  | None => false
  end.

(** The fields of a card other than the counterspell flag. *)
Definition sameOtherFields (a b : ScryfallCard) : Prop :=
  id a = id b /\ name a = name b /\ mana_cost a = mana_cost b /\
  cmc a = cmc b /\ type_line a = type_line b /\
  oracle_text a = oracle_text b /\ colors a = colors b /\
  color_identity a = color_identity b /\ keywords a = keywords b /\
  rarity a = rarity b /\ set a = set b /\ set_name a = set_name b /\
  image_uris a = image_uris b /\ card_faces a = card_faces b /\
  scryfall_uri a = scryfall_uri b /\ legalities a = legalities b.


(** ** Sample data and sample services *)

Definition sampleCard (cardId cost : string) (value : Q) : ScryfallCard :=
  {| id := cardId; name := "Sample"; mana_cost := cost; cmc := double value;
     type_line := "Instant"; oracle_text := "";
     colors := []; color_identity := [];
     keywords := None; rarity := "common"; set := "neo"; set_name := "Sample Set";
     image_uris := None; card_faces := None; scryfall_uri := "";
     legalities := ∅; isCounterspell := None |}.

Definition emptyList {T : Type} : ScryfallListResponse T :=
  {| object := "list"; total_cards := None; has_more := false;
     next_page := None; data := [] |}.

Definition cardsPage (cards : list ScryfallCard) (next : option string) : Response :=
  {| ok := true; status := 200; json_sets := emptyList;
     json_cards := {| object := "list"; total_cards := None;
                      has_more := match next with Some _ => true | None => false end;
                      next_page := next; data := cards |} |}.

Definition setsPage (sets : list ScryfallSet) : Response :=
  {| ok := true; status := 200;
     json_sets := {| object := "list"; total_cards := None; has_more := false;
                     next_page := None; data := sets |};
     json_cards := emptyList |}.

Definition refusal (code : Z) : Response :=
  {| ok := false; status := code; json_sets := emptyList; json_cards := emptyList |}.

(** A stand-in for [encodeURIComponent] that leaves its argument as it is. *)
Definition plainEncode (s : string) : string := s.

Definition bolt : ScryfallCard := sampleCard "bolt" "{R}" 1.
Definition negate : ScryfallCard := sampleCard "negate" "{1}{U}" 2.

Definition secondPage : string := "https://api.scryfall.com/cards/search?page=2".

(** A service with one page of instants, one page of counterspells and no
    special guests. *)
Definition remoteNeo (url : string) (w : unit) : (Response + string) * unit :=
  if String.eqb url (instantsUrl plainEncode "neo")
  then (inl (cardsPage [bolt; negate] None), w)
  else if String.eqb url (counterspellUrl plainEncode "neo")
  then (inl (cardsPage [negate] None), w)
  else (inl (refusal 404), w).

(** A service that announces a second page and answers 404 for it. *)
Definition remoteTruncated (url : string) (w : unit) : (Response + string) * unit :=
  if String.eqb url (instantsUrl plainEncode "neo")
  then (inl (cardsPage [bolt] (Some secondPage)), w)
  else if String.eqb url (counterspellUrl plainEncode "neo")
  then (inl (cardsPage [negate] (Some secondPage)), w)
  else (inl (refusal 404), w).

(** A service that answers every request with a server error. *)
Definition remoteDown (url : string) (w : unit) : (Response + string) * unit :=
  (inl (refusal 500), w).

(** A service that has nothing for any search. *)
Definition remoteNone (url : string) (w : unit) : (Response + string) * unit :=
  (inl (refusal 404), w).

Definition sampleSet (code kind date : string) (count : Z) : ScryfallSet :=
  {| set_id := code; set_code := code; set_name_ := code; set_type := kind;
     released_at := date; card_count := count;
     icon_svg_uri := ""; set_scryfall_uri := "" |}.

Definition sampleSets : list ScryfallSet :=
  [ sampleSet "m21" "core" "2020-07-03" 397;
    sampleSet "cmm" "commander" "2023-08-04" 1068;
    sampleSet "mkm" "expansion" "2024-02-09" 286;
    sampleSet "xxx" "expansion" "2024-02-09" 0;
    sampleSet "neo" "expansion" "2022-02-18" 512 ].

Definition remoteSets (url : string) (w : unit) : (Response + string) * unit :=
  if String.eqb url "https://api.scryfall.com/sets"
  then (inl (setsPage sampleSets), w)
  else (inl (refusal 404), w).

(** Milliseconds since the epoch for the dates of the samples; [NaN] for
    every other string. *)
Definition sampleTime (date : string) : option Z :=
  if String.eqb date "2020-07-03" then Some 1593734400000%Z
  else if String.eqb date "2022-02-18" then Some 1645142400000%Z
  else if String.eqb date "2023-08-04" then Some 1691107200000%Z
  else if String.eqb date "2024-02-09" then Some 1707436800000%Z
  else None.

(** A response in which one release date is no date. *)
Definition undatedSets : list ScryfallSet :=
  [ sampleSet "m21" "core" "2020-07-03" 397;
    sampleSet "bad" "expansion" "not-a-date" 100;
    sampleSet "mkm" "expansion" "2024-02-09" 286 ].

Definition remoteUndated (url : string) (w : unit) : (Response + string) * unit :=
  if String.eqb url "https://api.scryfall.com/sets"
  then (inl (setsPage undatedSets), w)
  else (inl (refusal 404), w).

(** ** Further vocabulary and samples *)

(** A character sequence without an opening brace. *)
Fixpoint no_open (s : string) : bool :=
  match s with
  | EmptyString => true
  | String c r => negb (Ascii.eqb c open_brace) && no_open r
  end.

(** A cost string made of symbols, each preceded by a separator, and a
    tail: [sep1 tok1 sep2 tok2 ... tail]. *)
Definition withSeparators (pieces : list (string * string)) (tail : string) : string :=
  fold_right (fun piece rest => fst piece +:+ snd piece +:+ rest) tail pieces.

(** The text between the braces of a symbol. *)
Definition symbolContent (symbol : string) : string := JS.slice 1 (-1) symbol.

(** A symbol that is no color letter and has no slash: a generic number,
    [X], snow, colorless and the like. *)
Definition colorFree (symbol : string) : bool :=
  negb (JS.includes "/" (symbolContent symbol)) &&
  negb (JS.test_color (symbolContent symbol)).

Definition fiveColors : list string := ["W"; "U"; "B"; "R"; "G"].

Definition bracket (content : string) : string :=
  String open_brace (content +:+ closing).

Definition sampleFace (text cost : string) : CardFace :=
  {| face_name := "Face"; face_mana_cost := cost; face_oracle_text := text;
     face_image_uris := None |}.

(** A card without text and cost of its own, and with the given faces. *)
Definition facedCard (faces : list CardFace) : ScryfallCard :=
  {| id := "faced"; name := "Front // Back"; mana_cost := ""; cmc := double 2;
     type_line := "Instant // Instant"; oracle_text := "";
     colors := []; color_identity := [];
     keywords := None; rarity := "rare"; set := "neo"; set_name := "Sample Set";
     image_uris := None; card_faces := Some faces; scryfall_uri := "";
     legalities := ∅; isCounterspell := None |}.

(** The card with other faces. *)
Definition withFaces (card : ScryfallCard) (faces : option (list CardFace))
    : ScryfallCard :=
  {| id := id card; name := name card; mana_cost := mana_cost card;
     cmc := cmc card; type_line := type_line card;
     oracle_text := oracle_text card; colors := colors card;
     color_identity := color_identity card; keywords := keywords card;
     rarity := rarity card; set := set card; set_name := set_name card;
     image_uris := image_uris card; card_faces := faces;
     scryfall_uri := scryfall_uri card; legalities := legalities card;
     isCounterspell := isCounterspell card |}.

Definition sampleUris (prefix : string) : ImageUris :=
  {| small := prefix +:+ "/small.jpg"; normal := prefix +:+ "/normal.jpg";
     large := prefix +:+ "/large.jpg"; art_crop := prefix +:+ "/art.jpg" |}.

Definition pictureFace (prefix cost : string) : CardFace :=
  {| face_name := "Face"; face_mana_cost := cost; face_oracle_text := "";
     face_image_uris := Some (sampleUris prefix) |}.

Definition guest : ScryfallCard := sampleCard "guest" "{U}{U}" 2.
Definition swan : ScryfallCard := sampleCard "swan" "{W/U}" 1.

Definition thirdPage : string := "https://api.scryfall.com/cards/search?page=3".

(** A service whose searches for special guests and for counterspells have
    two pages each. *)
Definition remotePaged (url : string) (w : unit) : (Response + string) * unit :=
  if String.eqb url (instantsUrl plainEncode "neo")
  then (inl (cardsPage [bolt; negate] None), w)
  else if String.eqb url (specialGuestsUrl plainEncode "neo")
  then (inl (cardsPage [guest] (Some secondPage)), w)
  else if String.eqb url secondPage
  then (inl (cardsPage [swan] None), w)
  else if String.eqb url (counterspellUrl plainEncode "neo")
  then (inl (cardsPage [negate] (Some thirdPage)), w)
  else if String.eqb url thirdPage
  then (inl (cardsPage [guest] None), w)
  else (inl (refusal 404), w).

(** A service with one page of instants and nothing else. *)
Definition remoteBare (url : string) (w : unit) : (Response + string) * unit :=
  if String.eqb url (instantsUrl plainEncode "neo")
  then (inl (cardsPage [bolt; negate] None), w)
  else (inl (refusal 404), w).

(** A service that loses the connection after the first page of the main
    search. *)
Definition remoteFlaky (url : string) (w : unit) : (Response + string) * unit :=
  if String.eqb url (instantsUrl plainEncode "neo")
  then (inl (cardsPage [bolt] (Some secondPage)), w)
  else (inr "connection reset", w).

(** A service that answers the main search and fails every other request. *)
Definition remoteGuestsDown (url : string) (w : unit) : (Response + string) * unit :=
  if String.eqb url (instantsUrl plainEncode "neo")
  then (inl (cardsPage [bolt] None), w)
  else (inl (refusal 500), w).

(** * Properties *)

(** ** Strings *)

Lemma append_cons (c : ascii) (a b : string) :
  String c a +:+ b = String c (a +:+ b).
Proof. reflexivity. Qed.

Lemma append_assoc (a b c : string) : (a +:+ b) +:+ c = a +:+ (b +:+ c).
Proof.
  induction a as [|x a IH]; [reflexivity|].
  now rewrite !append_cons, IH.
Qed.

Lemma arr_includes_In (x : string) (arr : list string) :
  JS.arr_includes x arr = true <-> In x arr.
Proof.
  unfold JS.arr_includes. rewrite existsb_exists. split.
  - intros [y [Hy Heq]]. apply String.eqb_eq in Heq. now subst.
  - intros H. exists x. split; [assumption | apply String.eqb_refl].
Qed.

(** ** The tokenizer *)

Lemma body_close_complete (b rest : string) :
  b <> EmptyString -> no_close b = true ->
  body_close (b +:+ closing +:+ rest) = Some (b, rest).
Proof.
  induction b as [|c b IH]; intros Hne Hnc; [congruence|].
  simpl in Hnc. apply andb_prop in Hnc as [Hc Hb].
  apply negb_true_iff in Hc. rewrite append_cons. simpl. rewrite Hc.
  destruct b as [|d b].
  - reflexivity.
  - rewrite IH; [reflexivity | discriminate | assumption].
Qed.

Lemma body_close_sound (s b rest : string) :
  body_close s = Some (b, rest) ->
  b <> EmptyString /\ no_close b = true /\ s = b +:+ closing +:+ rest.
Proof.
  revert b rest. induction s as [|c r IH]; intros b rest H; simpl in H; [discriminate|].
  destruct (Ascii.eqb c close_brace) eqn:Hc; [discriminate|].
  destruct (body_close r) as [[b' rest']|] eqn:Hr.
  - injection H as <- <-. destruct (IH _ _ eq_refl) as (_ & Hnc & ->).
    repeat split; [discriminate | simpl; now rewrite Hc].
  - destruct r as [|d r']; [discriminate|].
    destruct (Ascii.eqb d close_brace) eqn:Hd; [|discriminate].
    injection H as <- <-. apply Ascii.eqb_eq in Hd. subst d.
    repeat split; [discriminate | simpl; now rewrite Hc].
Qed.

Lemma bodyThenClose_shape (s : string) :
  bodyThenClose s = true <->
  exists b, b <> EmptyString /\ no_close b = true /\ s = b +:+ closing.
Proof.
  split.
  - induction s as [|c rest IH]; cbn [bodyThenClose]; [discriminate|].
    intros H. apply andb_prop in H as [Hc H].
    apply orb_prop in H as [H|H].
    + apply String.eqb_eq in H. subst rest. exists (String c EmptyString).
      repeat split; [discriminate | cbn [no_close]; now rewrite Hc].
    + destruct (IH H) as (b & _ & Hb & ->). exists (String c b).
      repeat split; [discriminate | cbn [no_close]; now rewrite Hc, Hb].
  - intros (b & Hne & Hnc & ->). induction b as [|c b IH]; [congruence|].
    cbn [no_close] in Hnc. apply andb_prop in Hnc as [Hc Hb].
    rewrite append_cons. cbn [bodyThenClose]. rewrite Hc. cbn [andb].
    destruct b as [|d b]; [reflexivity|].
    rewrite IH by (discriminate || assumption). apply orb_true_r.
Qed.

Lemma isSymbol_shape (tok : string) :
  isSymbol tok = true <->
  exists b, b <> EmptyString /\ no_close b = true /\
            tok = String open_brace (b +:+ closing).
Proof.
  unfold isSymbol. split.
  - destruct tok as [|c rest]; [discriminate|].
    intros H. apply andb_prop in H as [Hc H].
    apply Ascii.eqb_eq in Hc. subst c.
    apply bodyThenClose_shape in H as (b & Hne & Hnc & ->). now exists b.
  - intros (b & Hne & Hnc & ->). rewrite Ascii.eqb_refl. cbn [andb].
    apply bodyThenClose_shape. now exists b.
Qed.

Lemma match_all_skip (x rest : string) :
  match_all (String.length x) (x +:+ rest) = match_all 0 rest.
Proof.
  induction x as [|c x IH]; [now destruct rest|].
  rewrite append_cons. simpl. exact IH.
Qed.

Lemma match_all_symbol (tok rest : string) :
  isSymbol tok = true ->
  match_all 0 (tok +:+ rest) = tok :: match_all 0 rest.
Proof.
  intros H. apply isSymbol_shape in H as (b & Hne & Hnc & ->).
  rewrite append_cons. simpl.
  rewrite append_assoc, (body_close_complete b rest Hne Hnc).
  fold closing. f_equal.
  replace (String.length (String open_brace (b +:+ closing)) - 1)%nat
    with (String.length (b +:+ closing)) by (simpl; lia).
  rewrite <- append_assoc. apply match_all_skip.
Qed.

Lemma parse_join_symbols (tokens : list string) :
  forallb isSymbol tokens = true ->
  parseManaSymbols (JS.join tokens) = tokens.
Proof.
  unfold parseManaSymbols.
  induction tokens as [|tok tokens IH]; intros H; simpl in *; [reflexivity|].
  apply andb_prop in H as [Htok Hrest].
  rewrite (match_all_symbol tok _ Htok). f_equal. now apply IH.
Qed.

(** Every token the tokenizer returns is a bracketed symbol. *)
Lemma match_here_symbol (s tok : string) :
  match_here s = Some tok -> isSymbol tok = true.
Proof.
  unfold match_here. destruct s as [|c r]; [discriminate|].
  destruct (Ascii.eqb c open_brace); [|discriminate].
  destruct (body_close r) as [[b rest]|] eqn:Hr; [|discriminate].
  intros [= <-]. apply body_close_sound in Hr as (Hne & Hnc & _).
  apply isSymbol_shape. now exists b.
Qed.

Lemma match_all_symbols (s : string) (skip : nat) :
  forallb isSymbol (match_all skip s) = true.
Proof.
  revert skip. induction s as [|c r IH]; intros skip; [reflexivity|].
  destruct skip as [|k]; [|apply IH].
  change (match_all 0 (String c r)) with
    (match match_here (String c r) with
     | Some tok => tok :: match_all (String.length tok - 1) r
     | None => match_all 0 r
     end).
  destruct (match_here (String c r)) as [tok|] eqn:Hm; [|apply IH].
  cbn [forallb]. now rewrite (match_here_symbol _ _ Hm), IH.
Qed.

(** ** Rounding to binary64 *)

Section Rounding.
Local Open Scope Z_scope.

Lemma roundMagnitude_small m : 0 <= m < 2 ^ 53 -> Binary64.roundMagnitude m = m.
Proof.
  intros H. unfold Binary64.roundMagnitude.
  assert (Z.log2 m < 53) as Hl.
  { destruct (Z.eq_dec m 0) as [->|Hne]; [change (Z.log2 0) with 0; lia|].
    apply Z.log2_lt_pow2; lia. }
  destruct (Z.leb_spec (Z.log2 m - 52) 0); [reflexivity | lia].
Qed.

Lemma roundMagnitude_binade m :
  0 < m -> 2 ^ Z.log2 m <= Binary64.roundMagnitude m <= 2 ^ (Z.log2 m + 1).
Proof.
  intros Hm. pose proof (Z.log2_spec m Hm) as [Hlo Hhi].
  replace (Z.succ (Z.log2 m)) with (Z.log2 m + 1) in Hhi by lia.
  unfold Binary64.roundMagnitude.
  destruct (Z.leb_spec (Z.log2 m - 52) 0) as [He|He]; [lia|].
  set (e := Z.log2 m - 52) in *.
  assert (Z.log2 m = 52 + e) as HL by (unfold e; lia).
  rewrite HL in *. 
  assert (0 < 2 ^ e) as Hp by (apply Z.pow_pos_nonneg; lia).
  rewrite Z.pow_add_r in Hlo by lia.
  replace (52 + e + 1) with (53 + e) in * by lia.
  rewrite (Z.pow_add_r 2 53 e) in * by lia.
  rewrite (Z.pow_add_r 2 52 e) by lia.
  assert (2 ^ 52 <= m / 2 ^ e) as Hq1 by (apply Z.div_le_lower_bound; lia).
  assert (m / 2 ^ e < 2 ^ 53) as Hq2 by (apply Z.div_lt_upper_bound; lia).
  assert (0 <= (m / 2 ^ e) mod 2 < 2) as Hpar by (apply Z.mod_pos_bound; lia).
  set (q := m / 2 ^ e) in *.
  set (up := if m mod 2 ^ e <? 2 ^ (e - 1) then 0
             else if m mod 2 ^ e =? 2 ^ (e - 1) then q mod 2 else 1).
  assert (0 <= up <= 1) as Hup.
  { unfold up. destruct (_ <? _); [lia|]. destruct (_ =? _); lia. }
  split; nia.
Qed.

Lemma roundMagnitude_nonneg m : 0 <= m -> 0 <= Binary64.roundMagnitude m.
Proof.
  intros H. destruct (Z.eq_dec m 0) as [->|Hne];
    [change (Binary64.roundMagnitude 0) with 0; lia|].
  pose proof (roundMagnitude_binade m ltac:(lia)) as [Hlo _].
  assert (0 < 2 ^ Z.log2 m) by (apply Z.pow_pos_nonneg; [lia | apply Z.log2_nonneg]).
  lia.
Qed.

Lemma roundMagnitude_mono x y :
  0 <= x <= y -> Binary64.roundMagnitude x <= Binary64.roundMagnitude y.
Proof.
  intros [Hx Hxy].
  destruct (Z.eq_dec x 0) as [->|Hne].
  { change (Binary64.roundMagnitude 0) with 0. apply roundMagnitude_nonneg. lia. }
  assert (0 < x) as Hxpos by lia. assert (0 < y) as Hypos by lia.
  pose proof (Z.log2_le_mono x y Hxy) as Hlog.
  destruct (Z.eq_dec (Z.log2 x) (Z.log2 y)) as [Heq|Hneq].
  - unfold Binary64.roundMagnitude. rewrite Heq.
    destruct (Z.leb_spec (Z.log2 y - 52) 0) as [He|He]; [lia|].
    set (e := Z.log2 y - 52) in *.
    assert (0 < 2 ^ e) as Hp by (apply Z.pow_pos_nonneg; lia).
    pose proof (Z.div_le_mono x y (2 ^ e) Hp Hxy) as Hq.
    pose proof (Z.mod_pos_bound x (2 ^ e) Hp) as Hrx.
    pose proof (Z.mod_pos_bound y (2 ^ e) Hp) as Hry.
    pose proof (Z.div_mod x (2 ^ e) ltac:(lia)) as Hdx.
    pose proof (Z.div_mod y (2 ^ e) ltac:(lia)) as Hdy.
    assert (0 <= (x / 2 ^ e) mod 2 < 2) as Hpx by (apply Z.mod_pos_bound; lia).
    assert (0 <= (y / 2 ^ e) mod 2 < 2) as Hpy by (apply Z.mod_pos_bound; lia).
    apply Z.mul_le_mono_nonneg_r; [lia|].
    destruct (Z.eq_dec (x / 2 ^ e) (y / 2 ^ e)) as [Hqe|Hqne].
    + rewrite Hqe in *.
      assert (x mod 2 ^ e <= y mod 2 ^ e) as Hr by nia.
      destruct (Z.ltb_spec (x mod 2 ^ e) (2 ^ (e - 1)));
        destruct (Z.ltb_spec (y mod 2 ^ e) (2 ^ (e - 1)));
        destruct (Z.eqb_spec (x mod 2 ^ e) (2 ^ (e - 1)));
        destruct (Z.eqb_spec (y mod 2 ^ e) (2 ^ (e - 1))); lia.
    + destruct (Z.ltb_spec (x mod 2 ^ e) (2 ^ (e - 1)));
        destruct (Z.ltb_spec (y mod 2 ^ e) (2 ^ (e - 1)));
        destruct (Z.eqb_spec (x mod 2 ^ e) (2 ^ (e - 1)));
        destruct (Z.eqb_spec (y mod 2 ^ e) (2 ^ (e - 1))); lia.
  - pose proof (roundMagnitude_binade x Hxpos) as [_ Hux].
    pose proof (roundMagnitude_binade y Hypos) as [Hly _].
    assert (2 ^ (Z.log2 x + 1) <= 2 ^ Z.log2 y)
      by (apply Z.pow_le_mono_r; lia).
    lia.
Qed.

Lemma roundInteger_mono x y : x <= y -> Binary64.roundInteger x <= Binary64.roundInteger y.
Proof.
  intros Hxy. unfold Binary64.roundInteger.
  destruct (Z.ltb_spec x 0), (Z.ltb_spec y 0).
  - pose proof (roundMagnitude_mono (- y) (- x)). lia.
  - pose proof (roundMagnitude_nonneg (- x)). pose proof (roundMagnitude_nonneg y). lia.
  - lia.
  - apply roundMagnitude_mono. lia.
Qed.

Lemma roundInteger_small x : Z.abs x < 2 ^ 53 -> Binary64.roundInteger x = x.
Proof.
  intros H. unfold Binary64.roundInteger. destruct (Z.ltb_spec x 0).
  - rewrite roundMagnitude_small; lia.
  - rewrite roundMagnitude_small; lia.
Qed.


Lemma roundInteger_pos x : (0 <? Binary64.roundInteger x) = (0 <? x).
Proof.
  unfold Binary64.roundInteger. destruct (Z.ltb_spec x 0) as [Hneg|Hnn].
  - pose proof (roundMagnitude_nonneg (- x)).
    destruct (Z.ltb_spec 0 (- Binary64.roundMagnitude (- x))), (Z.ltb_spec 0 x); lia.
  - destruct (Z.eq_dec x 0) as [->|Hne]; [reflexivity|].
    pose proof (roundMagnitude_binade x ltac:(lia)) as [Hlo _].
    assert (0 < 2 ^ Z.log2 x) by (apply Z.pow_pos_nonneg; [lia | apply Z.log2_nonneg]).
    destruct (Z.ltb_spec 0 (Binary64.roundMagnitude x)), (Z.ltb_spec 0 x); lia.
Qed.

Lemma div_small (n : Z) (d : positive) :
  Z.abs n < 2 ^ 53 -> Z.abs (n / Zpos d) < 2 ^ 53.
Proof.
  intros H.
  pose proof (Z.div_mod n (Zpos d) ltac:(lia)) as Hd.
  pose proof (Z.mod_pos_bound n (Zpos d) ltac:(lia)) as Hm.
  assert (1 <= Zpos d) by lia.
  destruct (Z.abs_spec n) as [[? Ha]|[? Ha]];
    destruct (Z.abs_spec (n / Zpos d)) as [[? Hb]|[? Hb]]; nia.
Qed.

Lemma floor_of_double (q : Q) :
  Binary64.isDouble q = true -> Binary64.roundInteger (Qfloor q) = Qfloor q.
Proof.
  unfold Binary64.isDouble. intros H.
  rewrite <- (Qfloor_comp _ _ (Qred_correct q)).
  destruct (Qred q) as [n d]. cbn [Qnum Qden] in H. unfold Qfloor.
  assert (d = xH \/ Z.abs n < 2 ^ 53) as [->|Hsmall].
  { destruct d as [d|d|]; [right|right|now left].
    - destruct (Binary64.powerOfTwo d~1); [|discriminate].
      apply andb_prop in H as [_ H]. now apply Z.ltb_lt in H.
    - destruct (Binary64.powerOfTwo d~0); [|discriminate].
      apply andb_prop in H as [_ H]. now apply Z.ltb_lt in H. }
  - rewrite Z.div_1_r. unfold Binary64.isDoubleZ in H.
    apply andb_prop in H as [H _]. now apply Z.eqb_eq in H.
  - apply roundInteger_small. now apply div_small.
Qed.

End Rounding.

(** ** Castability *)

Lemma symbolPayable_mono (A B : list string) (symbol : string) :
  (forall color, In color A -> In color B) ->
  symbolPayable A symbol = true -> symbolPayable B symbol = true.
Proof.
  intros Hsub. unfold symbolPayable.
  set (content := JS.slice 1 (-1) symbol).
  destruct (JS.test_digits content || String.eqb content "X"); [reflexivity|].
  destruct (JS.includes "/" content).
  - destruct (0 <? _)%Z; [|reflexivity].
    destruct (existsb (fun color => JS.arr_includes color A) _) eqn:HA;
      [|discriminate].
    intros _. apply existsb_exists in HA as (color & Hin & Hc).
    apply arr_includes_In, Hsub, arr_includes_In in Hc.
    assert (existsb (fun color => JS.arr_includes color B)
              (List.filter JS.test_color (JS.split "/" content)) = true) as ->
      by (apply existsb_exists; eauto).
    reflexivity.
  - destruct (JS.endsWith "P" content && _); [reflexivity|].
    destruct (JS.test_color content); [|reflexivity].
    destruct (JS.arr_includes content A) eqn:HA; [|discriminate].
    intros _. apply arr_includes_In, Hsub, arr_includes_In in HA.
    now rewrite HA.
Qed.

Lemma castableLoop_mono (A B : list string) (symbols : list string) :
  (forall color, In color A -> In color B) ->
  castableLoop A symbols = true -> castableLoop B symbols = true.
Proof.
  intros Hsub. induction symbols as [|symbol rest IH]; [reflexivity|].
  cbn [castableLoop].
  destruct (symbolPayable A symbol) eqn:HA; [|discriminate].
  rewrite (symbolPayable_mono A B symbol Hsub HA). exact IH.
Qed.

(** C1. A card whose whole cost is the Phyrexian symbol [{B/P}]: the symbol
    is counted as Phyrexian, and yet the card is castable only when black is
    among the available colors; with no colors, or with the four other
    colors, [isCardCastableWithColors] returns [false].  The branch of the
    source that would accept the symbol is never reached, because the
    hybrid branch takes every symbol that contains a slash. *)
Theorem C1_phyrexian_needs_its_color :
  let card := sampleCard "c1" "{B/P}" 1 in
  countPhyrexianMana card = 1%Z /\
  isCardCastableWithColors card ["B"] = true /\
  isCardCastableWithColors card [] = false /\
  isCardCastableWithColors card ["W"; "U"; "R"; "G"] = false.
Proof. repeat split; vm_compute; reflexivity. Qed.

(** C2. A card whose whole cost is the generic/color symbol [{2/G}]: the
    card is castable when green is available, and
    [isCardCastableWithColors] returns [false] when it is not, although the
    generic side of the symbol needs no color. *)
Theorem C2_generic_hybrid_needs_its_color :
  let card := sampleCard "c2" "{2/G}" 2 in
  isCardCastableWithColors card ["G"] = true /\
  isCardCastableWithColors card [] = false /\
  isCardCastableWithColors card ["W"; "U"; "B"; "R"] = false.
Proof. repeat split; vm_compute; reflexivity. Qed.

(** C10. [isCardCastableWithColors] is monotone in the available colors:
    a card castable with the colors [A] is castable with every list [B]
    that contains all elements of [A]. *)
Theorem C10_castable_monotone (card : ScryfallCard) (A B : list string) :
  (forall color, In color A -> In color B) ->
  isCardCastableWithColors card A = true ->
  isCardCastableWithColors card B = true.
Proof.
  intros Hsub. unfold isCardCastableWithColors.
  destruct (String.eqb (resolveManaCost card) ""); [reflexivity|].
  now apply castableLoop_mono.
Qed.

Lemma C10_castable_monotone_witness :
  let card := sampleCard "c10" "{1}{G/W}{U}" 3 in
  isCardCastableWithColors card ["U"; "G"] = true /\
  isCardCastableWithColors card ["G"; "R"; "U"] = true.
Proof.
  intros card.
  assert (isCardCastableWithColors card ["U"; "G"] = true) as H
    by (vm_compute; reflexivity).
  split; [exact H|].
  apply (C10_castable_monotone card ["U"; "G"] ["G"; "R"; "U"]); [|exact H].
  intros color Hin. simpl in *. intuition.
Defined.

(** ** Mana value *)




(** ** Display colors *)

Lemma length_test {T} (arr : list T) :
  (0 <? Z.of_nat (List.length arr))%Z =
  match arr with [] => false | _ :: _ => true end.
Proof. destruct arr; reflexivity. Qed.

(** C8. [getCardColors] returns [colors] when that list is non-empty,
    whatever [color_identity] holds; otherwise [color_identity] when that
    is non-empty; otherwise [['C']].  The result is never empty. *)
Theorem C8_getCardColors_cases (card : ScryfallCard) :
  (colors card <> [] -> getCardColors card = colors card) /\
  (colors card = [] -> color_identity card <> [] ->
     getCardColors card = color_identity card) /\
  (colors card = [] -> color_identity card = [] ->
     getCardColors card = ["C"]) /\
  getCardColors card <> [].
Proof.
  unfold getCardColors. rewrite !length_test.
  destruct (colors card) as [|c cs]; destruct (color_identity card) as [|d ds];
    repeat split; intros; congruence.
Qed.

Lemma C8_getCardColors_cases_witness :
  let card := {| id := "c8"; name := "Sample"; mana_cost := "{U}"; cmc := double 1;
                 type_line := "Instant"; oracle_text := "";
                 colors := ["U"]; color_identity := ["U"; "R"];
                 keywords := None; rarity := "common"; set := "neo";
                 set_name := "Sample Set"; image_uris := None;
                 card_faces := None; scryfall_uri := "";
                 legalities := ∅; isCounterspell := None |} in
  colors card <> [] /\ getCardColors card = ["U"].
Proof.
  intros card.
  assert (colors card <> []) as Hne by discriminate.
  split; [exact Hne|].
  exact (proj1 (C8_getCardColors_cases card) Hne).
Defined.

(** ** Round trip of the tokenizer *)

(** C9, as stated, fails on the cost of a split card: the separator between
    the two halves is not part of any token. *)
Lemma C9_counterexample_split_card :
  JS.join (parseManaSymbols "{1}{R} // {1}{U}") = "{1}{R}{1}{U}" /\
  JS.join (parseManaSymbols "{1}{R} // {1}{U}") <> "{1}{R} // {1}{U}".
Proof. split; [vm_compute; reflexivity | vm_compute; discriminate]. Qed.

(** C9, amended. For a cost string that is a sequence of bracketed symbols
    (an opening brace, one or more characters other than the closing brace,
    a closing brace), [parseManaSymbols] returns exactly those symbols in
    order, and joining them gives back the cost string. *)
Theorem C9_roundtrip_on_symbol_sequences (tokens : list string) :
  forallb isSymbol tokens = true ->
  parseManaSymbols (JS.join tokens) = tokens /\
  JS.join (parseManaSymbols (JS.join tokens)) = JS.join tokens.
Proof.
  intros H. pose proof (parse_join_symbols tokens H) as Hp.
  split; [exact Hp | now rewrite Hp].
Qed.

Lemma C9_roundtrip_on_symbol_sequences_witness :
  forallb isSymbol ["{1}"; "{B/P}"; "{B}"] = true /\
  parseManaSymbols "{1}{B/P}{B}" = ["{1}"; "{B/P}"; "{B}"] /\
  JS.join (parseManaSymbols "{1}{B/P}{B}") = "{1}{B/P}{B}".
Proof.
  assert (forallb isSymbol ["{1}"; "{B/P}"; "{B}"] = true) as H
    by (vm_compute; reflexivity).
  split; [exact H|].
  exact (C9_roundtrip_on_symbol_sequences ["{1}"; "{B/P}"; "{B}"] H).
Defined.

(** The cost strings on which the round trip holds are exactly the
    sequences of bracketed symbols. *)
Remark roundtrip_characterised (manaCost : string) :
  JS.join (parseManaSymbols manaCost) = manaCost <->
  exists tokens, forallb isSymbol tokens = true /\ manaCost = JS.join tokens.
Proof.
  split.
  - intros H. exists (parseManaSymbols manaCost).
    split; [apply match_all_symbols | now symmetry].
  - intros (tokens & Hsym & ->). now rewrite (parse_join_symbols tokens Hsym).
Qed.

(** ** The sort *)

Section SortFacts.
Context {T : Type} (key : T -> option Z).
Local Abbreviation laterFirst := (laterFirst key).
Local Abbreviation notEarlier := (notEarlier key).

Lemma sortInsert_Permutation (compare : T -> T -> option Z) (a : T)
    (arr : list T) :
  Permutation (a :: arr) (sortInsert compare a arr).
Proof.
  induction arr as [|b rest IH]; cbn [sortInsert]; [reflexivity|].
  destruct (0 <? sortCompare compare a b)%Z; [|reflexivity].
  rewrite perm_swap. now apply perm_skip.
Qed.

Lemma sort_Permutation (compare : T -> T -> option Z) (arr : list T) :
  Permutation arr (sort compare arr).
Proof.
  induction arr as [|a rest IH]; cbn [sort fold_right]; [reflexivity|].
  rewrite <- sortInsert_Permutation. now apply perm_skip.
Qed.

(** What the sort reads of the comparator of two elements with times. *)
Lemma sortCompare_laterFirst (a b : T) (ta tb : Z) :
  key a = Some ta -> key b = Some tb ->
  (0 <? sortCompare laterFirst a b)%Z = (0 <? tb - ta)%Z.
Proof.
  intros Ha Hb. unfold sortCompare, SortFacts.laterFirst, subtractTimes.
  rewrite Ha, Hb. apply roundInteger_pos.
Qed.

(** The comparator moves [a] behind [b] only when both have times and the
    one of [b] is the later. *)
Lemma sortCompare_moves (a b : T) :
  (0 <? sortCompare laterFirst a b)%Z = true ->
  exists ta tb, key a = Some ta /\ key b = Some tb /\ (ta < tb)%Z.
Proof.
  unfold sortCompare, SortFacts.laterFirst, subtractTimes.
  destruct (key a) as [ta|] eqn:Ha, (key b) as [tb|] eqn:Hb;
    try discriminate.
  rewrite roundInteger_pos. intros H. apply Z.ltb_lt in H.
  exists ta, tb. repeat split; lia.
Qed.

Lemma sortInsert_sorted (a : T) (arr : list T) :
  key a <> None ->
  Forall (fun x => key x <> None) arr ->
  StronglySorted notEarlier arr ->
  StronglySorted notEarlier (sortInsert laterFirst a arr).
Proof.
  intros Ha. destruct (key a) as [ta|] eqn:Hta; [clear Ha | congruence].
  induction arr as [|b rest IH]; intros Hdated Hs; cbn [sortInsert].
  - repeat constructor.
  - apply StronglySorted_inv in Hs as [Hrest Hb].
    apply Forall_cons in Hdated as [Hkb Hdated].
    destruct (key b) as [tb|] eqn:Htb; [|congruence].
    rewrite (sortCompare_laterFirst a b ta tb Hta Htb).
    destruct (0 <? tb - ta)%Z eqn:Hcmp.
    + apply Z.ltb_lt in Hcmp. constructor; [now apply IH|].
      rewrite <- sortInsert_Permutation. constructor; [|assumption].
      unfold SortFacts.notEarlier. rewrite Htb, Hta. lia.
    + apply Z.ltb_ge in Hcmp.
      constructor; [now constructor|].
      constructor; [unfold SortFacts.notEarlier; rewrite Hta, Htb; lia|].
      eapply Forall_impl; [exact Hb|].
      unfold SortFacts.notEarlier. rewrite Hta, Htb. intros x Hx.
      destruct (key x); [lia | contradiction].
Qed.

Lemma sort_sorted (arr : list T) :
  Forall (fun x => key x <> None) arr ->
  StronglySorted notEarlier (sort laterFirst arr).
Proof.
  induction arr as [|a rest IH]; intros Hdated; cbn [sort fold_right];
    [constructor|].
  apply Forall_cons in Hdated as [Ha Hdated].
  apply sortInsert_sorted; [assumption | | now apply IH].
  now rewrite <- (sort_Permutation laterFirst rest).
Qed.

End SortFacts.

(** ** Runs of the client *)

Lemma bind_Returned {World A B} (m : Async World A) (k : A -> Async World B)
    (w w' : World) (b : B) :
  bind m k w = (Returned b, w') ->
  exists a w1, m w = (Returned a, w1) /\ k a w1 = (Returned b, w').
Proof.
  unfold bind. destruct (m w) as [[a|e|] w1]; try discriminate. eauto.
Qed.

Lemma bind_Thrown {World A B} (m : Async World A) (k : A -> Async World B)
    (w w' : World) (e : Exn) :
  bind m k w = (Thrown e, w') ->
  m w = (Thrown e, w') \/
  exists a w1, m w = (Returned a, w1) /\ k a w1 = (Thrown e, w').
Proof.
  unfold bind. destruct (m w) as [[a|e'|] w1]; try discriminate.
  - intros H. right. eauto.
  - intros [= -> ->]. now left.
Qed.

Lemma addIds_spec (cards : list ScryfallCard) (ids : gset string) (x : string) :
  x ∈ addIds ids cards <-> x ∈ ids \/ exists card, In card cards /\ id card = x.
Proof.
  unfold addIds. revert ids.
  induction cards as [|card rest IH]; intros ids; cbn [foldl].
  - split; [now left | intros [H|(c & [] & _)]; exact H].
  - rewrite IH, elem_of_union, elem_of_singleton. split.
    + intros [[H| ->]|(c & Hin & Hid)]; [now left | right | right].
      * exists card. split; [now left | reflexivity].
      * exists c. split; [now right | assumption].
    + intros [H|(c & [<-|Hin] & Hid)]; [left; now left | left; now right |].
      right. now exists c.
Qed.

Lemma markCounterspell_spec (ids : gset string) (card : ScryfallCard) :
  isCounterspell (markCounterspell ids card) = Some (bool_decide (id card ∈ ids)) /\
  sameOtherFields (markCounterspell ids card) card.
Proof. split; [reflexivity | repeat split]. Qed.

Section ClientFacts.
Context {World : Type}.
Variable encodeURIComponent : string -> string.
Variable getTime : string -> option Z.
Variable fetch : string -> World -> (Response + string) * World.

Lemma addIds_app (ids : gset string) (xs ys : list ScryfallCard) :
  addIds (addIds ids xs) ys = addIds ids (xs ++ ys).
Proof. unfold addIds. now rewrite foldl_app. Qed.

Lemma paginateCards_stop failure fuel url allCards w :
  truthy url = None ->
  paginateCards fetch failure fuel url allCards w = (Returned (LoopDone allCards), w).
Proof. intros H. destruct fuel; cbn [paginateCards]; now rewrite H. Qed.

Lemma paginateIds_stop failure fuel url ids w :
  truthy url = None ->
  paginateIds fetch failure fuel url ids w = (Returned (LoopDone ids), w).
Proof. intros H. destruct fuel; cbn [paginateIds]; now rewrite H. Qed.

Lemma paginateCards_S failure fuel url u allCards w :
  truthy url = Some u ->
  paginateCards fetch failure (S fuel) url allCards w =
  match fetch u w with
  | (inl response, w1) =>
      if ok response then
        paginateCards fetch failure fuel (nextUrl (json_cards response))
          (allCards ++ data (json_cards response)) w1
      else if (status response =? 404)%Z then (Returned (ReturnStmt []), w1)
      else (Thrown (Error failure), w1)
  | (inr reason, w1) => (Thrown (TransportFailure reason), w1)
  end.
Proof.
  intros H. cbn [paginateCards]. rewrite H. unfold bind, awaitFetch.
  destruct (fetch u w) as [[response|reason] w1]; [|reflexivity].
  destruct (ok response); cbn [negb]; [reflexivity|].
  destruct (status response =? 404)%Z; reflexivity.
Qed.

Lemma paginateIds_S failure fuel url u ids w :
  truthy url = Some u ->
  paginateIds fetch failure (S fuel) url ids w =
  match fetch u w with
  | (inl response, w1) =>
      if ok response then
        paginateIds fetch failure fuel (nextUrl (json_cards response))
          (addIds ids (data (json_cards response))) w1
      else if (status response =? 404)%Z then (Returned (ReturnStmt ids), w1)
      else (Thrown (Error failure), w1)
  | (inr reason, w1) => (Thrown (TransportFailure reason), w1)
  end.
Proof.
  intros H. cbn [paginateIds]. rewrite H. unfold bind, awaitFetch.
  destruct (fetch u w) as [[response|reason] w1]; [|reflexivity].
  destruct (ok response); cbn [negb]; [reflexivity|].
  destruct (status response =? 404)%Z; reflexivity.
Qed.

Lemma paginateCards_Pages failure url w pages url' w' :
  Pages fetch url w pages url' w' ->
  forall fuel allCards,
    paginateCards fetch failure (List.length pages + fuel) url allCards w =
    paginateCards fetch failure fuel url' (allCards ++ pageCards pages) w'.
Proof.
  induction 1 as [url w|url u w page w1 pages url' w' Hu Hf Hok _ IH];
    intros fuel allCards.
  - cbn. now rewrite app_nil_r.
  - cbn [List.length Nat.add]. rewrite (paginateCards_S _ _ _ _ _ _ Hu), Hf, Hok.
    rewrite IH. cbn [pageCards flat_map]. now rewrite app_assoc.
Qed.

Lemma paginateIds_Pages failure url w pages url' w' :
  Pages fetch url w pages url' w' ->
  forall fuel ids,
    paginateIds fetch failure (List.length pages + fuel) url ids w =
    paginateIds fetch failure fuel url' (addIds ids (pageCards pages)) w'.
Proof.
  induction 1 as [url w|url u w page w1 pages url' w' Hu Hf Hok _ IH];
    intros fuel ids.
  - reflexivity.
  - cbn [List.length Nat.add]. rewrite (paginateIds_S _ _ _ _ _ _ Hu), Hf, Hok.
    rewrite IH. cbn [pageCards flat_map]. now rewrite addIds_app.
Qed.

(** A loop that runs through its pages to the end. *)
Lemma paginateCards_complete failure fuel start w pages url w' allCards :
  Pages fetch start w pages url w' -> truthy url = None ->
  (List.length pages <= fuel)%nat ->
  paginateCards fetch failure fuel start allCards w =
  (Returned (LoopDone (allCards ++ pageCards pages)), w').
Proof.
  intros Hpages Hend Hfuel.
  replace fuel with (List.length pages + (fuel - List.length pages))%nat by lia.
  rewrite (paginateCards_Pages failure _ _ _ _ _ Hpages).
  now apply paginateCards_stop.
Qed.

Lemma paginateIds_complete failure fuel start w pages url w' ids :
  Pages fetch start w pages url w' -> truthy url = None ->
  (List.length pages <= fuel)%nat ->
  paginateIds fetch failure fuel start ids w =
  (Returned (LoopDone (addIds ids (pageCards pages))), w').
Proof.
  intros Hpages Hend Hfuel.
  replace fuel with (List.length pages + (fuel - List.length pages))%nat by lia.
  rewrite (paginateIds_Pages failure _ _ _ _ _ Hpages).
  now apply paginateIds_stop.
Qed.

(** What a refusal does to the two loops. *)
Lemma paginateCards_Refused failure fuel start w pages response w' allCards :
  Refused fetch start w pages response w' ->
  (List.length pages < fuel)%nat ->
  paginateCards fetch failure fuel start allCards w =
  if (status response =? 404)%Z then (Returned (ReturnStmt []), w')
  else (Thrown (Error failure), w').
Proof.
  intros (url & u & w1 & Hpages & Hu & Hf & Hok) Hfuel.
  replace fuel with (List.length pages + S (fuel - S (List.length pages)))%nat by lia.
  rewrite (paginateCards_Pages failure _ _ _ _ _ Hpages).
  now rewrite (paginateCards_S _ _ _ _ _ _ Hu), Hf, Hok.
Qed.

Lemma paginateIds_Refused failure fuel start w pages response w' ids :
  Refused fetch start w pages response w' ->
  (List.length pages < fuel)%nat ->
  paginateIds fetch failure fuel start ids w =
  if (status response =? 404)%Z
  then (Returned (ReturnStmt (addIds ids (pageCards pages))), w')
  else (Thrown (Error failure), w').
Proof.
  intros (url & u & w1 & Hpages & Hu & Hf & Hok) Hfuel.
  replace fuel with (List.length pages + S (fuel - S (List.length pages)))%nat by lia.
  rewrite (paginateIds_Pages failure _ _ _ _ _ Hpages).
  now rewrite (paginateIds_S _ _ _ _ _ _ Hu), Hf, Hok.
Qed.

(** An [Error] thrown by a loop comes from a refusal whose status is not
    404. *)
Lemma paginateCards_Error failure fuel :
  forall url allCards w message w',
    paginateCards fetch failure fuel url allCards w = (Thrown (Error message), w') ->
    message = failure /\
    exists pages response,
      Refused fetch url w pages response w' /\ status response <> 404%Z.
Proof.
  induction fuel as [|fuel IH]; intros url allCards w message w' H.
  - cbn [paginateCards] in H. destruct (truthy url); discriminate.
  - destruct (truthy url) as [u|] eqn:Hu;
      [|rewrite paginateCards_stop in H by assumption; discriminate].
    rewrite (paginateCards_S _ _ _ _ _ _ Hu) in H.
    destruct (fetch u w) as [[response|reason] w1] eqn:Hf; [|discriminate].
    destruct (ok response) eqn:Hok.
    + apply IH in H as (-> & pages & r & (url' & u' & w2 & Hp & Hr) & Hst).
      split; [reflexivity|]. exists (response :: pages), r. split; [|assumption].
      exists url', u', w2. split; [|assumption]. econstructor; eassumption.
    + destruct (status response =? 404)%Z eqn:Hst; [discriminate|].
      injection H as <- <-. split; [reflexivity|].
      exists [], response. split; [|now apply Z.eqb_neq].
      exists url, u, w. repeat split; try assumption. constructor.
Qed.

Lemma paginateIds_Error failure fuel :
  forall url ids w message w',
    paginateIds fetch failure fuel url ids w = (Thrown (Error message), w') ->
    message = failure /\
    exists pages response,
      Refused fetch url w pages response w' /\ status response <> 404%Z.
Proof.
  induction fuel as [|fuel IH]; intros url ids w message w' H.
  - cbn [paginateIds] in H. destruct (truthy url); discriminate.
  - destruct (truthy url) as [u|] eqn:Hu;
      [|rewrite paginateIds_stop in H by assumption; discriminate].
    rewrite (paginateIds_S _ _ _ _ _ _ Hu) in H.
    destruct (fetch u w) as [[response|reason] w1] eqn:Hf; [|discriminate].
    destruct (ok response) eqn:Hok.
    + apply IH in H as (-> & pages & r & (url' & u' & w2 & Hp & Hr) & Hst).
      split; [reflexivity|]. exists (response :: pages), r. split; [|assumption].
      exists url', u', w2. split; [|assumption]. econstructor; eassumption.
    + destruct (status response =? 404)%Z eqn:Hst; [discriminate|].
      injection H as <- <-. split; [reflexivity|].
      exists [], response. split; [|now apply Z.eqb_neq].
      exists url, u, w. repeat split; try assumption. constructor.
Qed.

(** *** The four queries under a refusal *)

Local Abbreviation instants := (fetchInstantsFromSet encodeURIComponent fetch).
Local Abbreviation specialGuests := (fetchSpecialGuestsFromSet encodeURIComponent fetch).
Local Abbreviation counterspells := (fetchCounterspellIds encodeURIComponent fetch).
Local Abbreviation specialGuestsCounterspells :=
  (fetchSpecialGuestsCounterspellIds encodeURIComponent fetch).

Lemma instants_Refused fuel setCode w pages response w' :
  Refused fetch (Some (instantsUrl encodeURIComponent setCode)) w pages response w' ->
  (List.length pages < fuel)%nat ->
  instants fuel setCode w =
  if (status response =? 404)%Z then (Returned [], w')
  else (Thrown (Error "Failed to fetch cards"), w').
Proof.
  intros Href Hfuel. unfold fetchInstantsFromSet, bind.
  rewrite (paginateCards_Refused _ _ _ _ _ _ _ _ Href Hfuel).
  destruct (status response =? 404)%Z; reflexivity.
Qed.

Lemma specialGuests_Refused fuel setCode w pages response w' :
  Refused fetch (Some (specialGuestsUrl encodeURIComponent setCode)) w pages response w' ->
  (List.length pages < fuel)%nat ->
  specialGuests fuel setCode w =
  if (status response =? 404)%Z then (Returned [], w')
  else (Thrown (Error "Failed to fetch Special Guests cards"), w').
Proof.
  intros Href Hfuel. unfold fetchSpecialGuestsFromSet, bind.
  rewrite (paginateCards_Refused _ _ _ _ _ _ _ _ Href Hfuel).
  destruct (status response =? 404)%Z; reflexivity.
Qed.

Lemma counterspells_Refused fuel setCode w pages response w' :
  Refused fetch (Some (counterspellUrl encodeURIComponent setCode)) w pages response w' ->
  (List.length pages < fuel)%nat ->
  counterspells fuel setCode w =
  if (status response =? 404)%Z
  then (Returned (addIds ∅ (pageCards pages)), w')
  else (Thrown (Error "Failed to fetch counterspells"), w').
Proof.
  intros Href Hfuel. unfold fetchCounterspellIds, bind.
  rewrite (paginateIds_Refused _ _ _ _ _ _ _ _ Href Hfuel).
  destruct (status response =? 404)%Z; reflexivity.
Qed.

Lemma specialGuestsCounterspells_Refused fuel setCode w pages response w' :
  Refused fetch (Some (specialGuestsCounterspellUrl encodeURIComponent setCode))
    w pages response w' ->
  (List.length pages < fuel)%nat ->
  specialGuestsCounterspells fuel setCode w =
  if (status response =? 404)%Z
  then (Returned (addIds ∅ (pageCards pages)), w')
  else (Thrown (Error "Failed to fetch Special Guests counterspells"), w').
Proof.
  intros Href Hfuel. unfold fetchSpecialGuestsCounterspellIds, bind.
  rewrite (paginateIds_Refused _ _ _ _ _ _ _ _ Href Hfuel).
  destruct (status response =? 404)%Z; reflexivity.
Qed.

Lemma specialGuests_Error fuel setCode w message w' :
  specialGuests fuel setCode w = (Thrown (Error message), w') ->
  RefusedOtherwise fetch w'.
Proof.
  unfold fetchSpecialGuestsFromSet. intros H.
  apply bind_Thrown in H as [H|(exit & w1 & _ & H)].
  - apply paginateCards_Error in H as (_ & pages & r & H). now do 4 eexists.
  - destruct exit; discriminate.
Qed.

Lemma counterspells_Error fuel setCode w message w' :
  counterspells fuel setCode w = (Thrown (Error message), w') ->
  RefusedOtherwise fetch w'.
Proof.
  unfold fetchCounterspellIds. intros H.
  apply bind_Thrown in H as [H|(exit & w1 & _ & H)].
  - apply paginateIds_Error in H as (_ & pages & r & H). now do 4 eexists.
  - destruct exit; discriminate.
Qed.

Lemma specialGuestsCounterspells_Error fuel setCode w message w' :
  specialGuestsCounterspells fuel setCode w = (Thrown (Error message), w') ->
  RefusedOtherwise fetch w'.
Proof.
  unfold fetchSpecialGuestsCounterspellIds. intros H.
  apply bind_Thrown in H as [H|(exit & w1 & _ & H)].
  - apply paginateIds_Error in H as (_ & pages & r & H). now do 4 eexists.
  - destruct exit; discriminate.
Qed.

Lemma instants_Error fuel setCode w message w' :
  instants fuel setCode w = (Thrown (Error message), w') ->
  RefusedOtherwise fetch w'.
Proof.
  unfold fetchInstantsFromSet. intros H.
  apply bind_Thrown in H as [H|(exit & w1 & _ & H)].
  { apply paginateCards_Error in H as (_ & pages & r & H). now do 4 eexists. }
  destruct exit as [cards|allCards]; [discriminate|].
  apply bind_Thrown in H as [H|(spgCards & w2 & _ & H)];
    [now apply specialGuests_Error in H|].
  apply bind_Thrown in H as [H|(ids & w3 & _ & H)];
    [now apply counterspells_Error in H|].
  apply bind_Thrown in H as [H|(spgIds & w4 & _ & H)];
    [now apply specialGuestsCounterspells_Error in H | discriminate].
Qed.

(** C6. A 404 is no failure for any of the four search queries.  When the
    first page of a search is refused with status 404, the query returns
    its empty result (one iteration of the loop is enough):
    [fetchInstantsFromSet] and the special-guest search the empty
    sequence, the two counterspell queries the empty set.  A 404 on any
    page makes the query return, not throw.  When the main search has run
    to its end and the three other queries end in a 404,
    [fetchInstantsFromSet] returns.  And when one of the four throws an
    [Error], a query was refused with a status other than 404. *)
Theorem C6_not_found_is_empty (fuel : nat) (setCode : string) (w w' : World) :
  (forall response,
     ok response = false -> status response = 404%Z ->
     (fetch (instantsUrl encodeURIComponent setCode) w = (inl response, w') ->
        instants (S fuel) setCode w = (Returned [], w')) /\
     (fetch (specialGuestsUrl encodeURIComponent setCode) w = (inl response, w') ->
        specialGuests (S fuel) setCode w = (Returned [], w')) /\
     (fetch (counterspellUrl encodeURIComponent setCode) w = (inl response, w') ->
        counterspells (S fuel) setCode w = (Returned ∅, w')) /\
     (fetch (specialGuestsCounterspellUrl encodeURIComponent setCode) w =
        (inl response, w') ->
        specialGuestsCounterspells (S fuel) setCode w = (Returned ∅, w'))) /\
  (forall start pages response,
     Refused fetch (Some start) w pages response w' ->
     status response = 404%Z ->
     (List.length pages < fuel)%nat ->
     (start = instantsUrl encodeURIComponent setCode ->
        exists cards, instants fuel setCode w = (Returned cards, w')) /\
     (start = specialGuestsUrl encodeURIComponent setCode ->
        exists cards, specialGuests fuel setCode w = (Returned cards, w')) /\
     (start = counterspellUrl encodeURIComponent setCode ->
        exists ids, counterspells fuel setCode w = (Returned ids, w')) /\
     (start = specialGuestsCounterspellUrl encodeURIComponent setCode ->
        exists ids, specialGuestsCounterspells fuel setCode w = (Returned ids, w'))) /\
  (forall pages url w1 pages2 r2 w2 pages3 r3 w3 pages4 r4,
     Pages fetch (Some (instantsUrl encodeURIComponent setCode)) w pages url w1 ->
     truthy url = None ->
     (List.length pages <= fuel)%nat ->
     Refused fetch (Some (specialGuestsUrl encodeURIComponent setCode))
       w1 pages2 r2 w2 ->
     Refused fetch (Some (counterspellUrl encodeURIComponent setCode))
       w2 pages3 r3 w3 ->
     Refused fetch (Some (specialGuestsCounterspellUrl encodeURIComponent setCode))
       w3 pages4 r4 w' ->
     status r2 = 404%Z -> status r3 = 404%Z -> status r4 = 404%Z ->
     (List.length pages2 < fuel)%nat -> (List.length pages3 < fuel)%nat ->
     (List.length pages4 < fuel)%nat ->
     exists cards, instants fuel setCode w = (Returned cards, w')) /\
  (forall message,
     instants fuel setCode w = (Thrown (Error message), w') \/
     specialGuests fuel setCode w = (Thrown (Error message), w') \/
     counterspells fuel setCode w = (Thrown (Error message), w') \/
     specialGuestsCounterspells fuel setCode w = (Thrown (Error message), w') ->
     exists start w0 pages response,
       Refused fetch start w0 pages response w' /\ status response <> 404%Z).
Proof.
  split; [|split; [|split]].
  - intros response Hok Hst. apply Z.eqb_eq in Hst.
    assert (forall start,
              truthy (Some start) = Some start ->
              fetch start w = (inl response, w') ->
              Refused fetch (Some start) w [] response w') as Href.
    { intros start Hstart Hf. exists (Some start), start, w.
      split; [constructor|]. split; [exact Hstart|]. now split. }
    split; [|split; [|split]]; intros Hf.
    + rewrite (instants_Refused (S fuel) _ _ _ _ _
                 (Href (instantsUrl encodeURIComponent setCode) eq_refl Hf))
        by (cbn; lia). now rewrite Hst.
    + rewrite (specialGuests_Refused (S fuel) _ _ _ _ _
                 (Href (specialGuestsUrl encodeURIComponent setCode) eq_refl Hf))
        by (cbn; lia). now rewrite Hst.
    + rewrite (counterspells_Refused (S fuel) _ _ _ _ _
                 (Href (counterspellUrl encodeURIComponent setCode) eq_refl Hf))
        by (cbn; lia). now rewrite Hst.
    + rewrite (specialGuestsCounterspells_Refused (S fuel) _ _ _ _ _
                 (Href (specialGuestsCounterspellUrl encodeURIComponent setCode)
                    eq_refl Hf)) by (cbn; lia). now rewrite Hst.
  - intros start pages response Href Hst Hfuel. apply Z.eqb_eq in Hst.
    split; [|split; [|split]]; intros ->; eexists.
    + rewrite (instants_Refused _ _ _ _ _ _ Href Hfuel). now rewrite Hst.
    + rewrite (specialGuests_Refused _ _ _ _ _ _ Href Hfuel). now rewrite Hst.
    + rewrite (counterspells_Refused _ _ _ _ _ _ Href Hfuel). now rewrite Hst.
    + rewrite (specialGuestsCounterspells_Refused _ _ _ _ _ _ Href Hfuel).
      now rewrite Hst.
  - intros pages url w1 pages2 r2 w2 pages3 r3 w3 pages4 r4
      Hpages Hend Hfuel Href2 Href3 Href4 Hst2 Hst3 Hst4 Hfuel2 Hfuel3 Hfuel4.
    apply Z.eqb_eq in Hst2, Hst3, Hst4.
    pose proof (specialGuests_Refused _ setCode _ _ _ _ Href2 Hfuel2) as Hspg.
    pose proof (counterspells_Refused _ setCode _ _ _ _ Href3 Hfuel3) as Hids.
    pose proof (specialGuestsCounterspells_Refused _ setCode _ _ _ _ Href4 Hfuel4)
      as HspgIds.
    rewrite Hst2 in Hspg. rewrite Hst3 in Hids. rewrite Hst4 in HspgIds.
    eexists. unfold fetchInstantsFromSet, bind at 1.
    rewrite (paginateCards_complete _ _ _ _ _ _ _ [] Hpages Hend Hfuel).
    unfold bind. rewrite Hspg, Hids, HspgIds. reflexivity.
  - intros message [H|[H|[H|H]]].
    + exact (instants_Error _ _ _ _ _ H).
    + exact (specialGuests_Error _ _ _ _ _ H).
    + exact (counterspells_Error _ _ _ _ _ H).
    + exact (specialGuestsCounterspells_Error _ _ _ _ _ H).
Qed.

(** *** The result of [fetchInstantsFromSet] *)

Lemma markCounterspell_map (ids : gset string) (cards : list ScryfallCard) :
  Forall2
    (fun card fetched =>
       isCounterspell card = Some (bool_decide (id card ∈ ids)) /\
       sameOtherFields card fetched)
    (List.map (markCounterspell ids) cards) cards.
Proof.
  induction cards as [|card rest IH]; cbn [List.map]; constructor; [|exact IH].
  exact (markCounterspell_spec ids card).
Qed.

(** C5. A sequence returned by [fetchInstantsFromSet] is either empty, or
    it is the cards of the main search followed by the special-guest cards,
    each with its fields as fetched and with the flag [isCounterspell] set
    to whether its id is in the union of the ids returned by the two
    counterspell queries of the same run. *)
Theorem C5_counterspell_flag (fuel : nat) (setCode : string) (w w' : World)
    (cards : list ScryfallCard) :
  instants fuel setCode w = (Returned cards, w') ->
  cards = [] \/
  exists mainCards spgCards counterspellIds spgCounterspellIds w1 w2 w3,
    paginateCards fetch "Failed to fetch cards" fuel
      (Some (instantsUrl encodeURIComponent setCode)) [] w =
      (Returned (LoopDone mainCards), w1) /\
    specialGuests fuel setCode w1 = (Returned spgCards, w2) /\
    counterspells fuel setCode w2 = (Returned counterspellIds, w3) /\
    specialGuestsCounterspells fuel setCode w3 = (Returned spgCounterspellIds, w') /\
    Forall2
      (fun card fetched =>
         isCounterspell card =
           Some (bool_decide (id card ∈ counterspellIds ∪ spgCounterspellIds)) /\
         sameOtherFields card fetched)
      cards (mainCards ++ spgCards).
Proof.
  unfold fetchInstantsFromSet at 1. intros H.
  apply bind_Returned in H as (exit & w1 & Hmain & H).
  destruct exit as [early|mainCards].
  - left. injection H as <- <-.
    assert (forall n url acc w0 w2 r,
              paginateCards fetch "Failed to fetch cards" n url acc w0 =
                (Returned (ReturnStmt r), w2) -> r = []) as Hempty.
    { induction n as [|n IH]; intros url acc w0 w2 r Hr.
      - cbn [paginateCards] in Hr. destruct (truthy url); discriminate.
      - destruct (truthy url) as [u|] eqn:Hu;
          [|rewrite paginateCards_stop in Hr by assumption; discriminate].
        rewrite (paginateCards_S _ _ _ _ _ _ Hu) in Hr.
        destruct (fetch u w0) as [[response|reason] w3]; [|discriminate].
        destruct (ok response); [now apply IH in Hr|].
        destruct (status response =? 404)%Z; [|discriminate].
        now injection Hr as <- <-. }
    exact (Hempty _ _ _ _ _ _ Hmain).
  - right.
    apply bind_Returned in H as (spgCards & w2 & Hspg & H).
    apply bind_Returned in H as (ids & w3 & Hids & H).
    apply bind_Returned in H as (spgIds & w4 & HspgIds & H).
    injection H as <- <-.
    exists mainCards, spgCards, ids, spgIds, w1, w2, w3.
    repeat split; try assumption. apply markCounterspell_map.
Qed.

(** *** The result of [fetchSets] *)

(** C7, amended. When the service answers the request for the sets with a
    success, [fetchSets] returns a sequence in which every set has an
    allowed type and a positive card count, and which contains every set
    of the response that has an allowed type and a positive card count;
    when the release date of every returned set is a date, the sequence is
    ordered by release date, the latest first. *)
Theorem C7_fetchSets_filtered_sorted (w w' : World) (response : Response) :
  fetch "https://api.scryfall.com/sets" w = (inl response, w') ->
  ok response = true ->
  exists sets,
    fetchSets getTime fetch w = (Returned sets, w') /\
    Forall (fun set => In (set_type set) validTypes /\ (0 < card_count set)%Z) sets /\
    (forall set,
       In set (data (json_sets response)) ->
       In (set_type set) validTypes -> (0 < card_count set)%Z ->
       In set sets) /\
    ((forall set, In set sets -> getTime (released_at set) <> None) ->
     StronglySorted (notEarlier (fun set => getTime (released_at set))) sets).
Proof.
  intros Hf Hok. unfold fetchSets, bind, awaitFetch. rewrite Hf, Hok. cbn [negb].
  eexists. split; [reflexivity|].
  set (kept := List.filter _ _).
  set (compare := fun a b : ScryfallSet => _).
  pose proof (sort_Permutation compare kept) as Hperm.
  split; [|split].
  - apply List.Forall_forall. intros set Hin.
    apply (Permutation_in _ (Permutation_sym Hperm)) in Hin.
    apply filter_In in Hin as [_ Hkeep].
    apply andb_prop in Hkeep as [Htype Hcount].
    split; [now apply arr_includes_In | now apply Z.ltb_lt].
  - intros set Hin Htype Hcount.
    apply (Permutation_in _ Hperm), filter_In. split; [assumption|].
    apply andb_true_intro. split; [now apply arr_includes_In | now apply Z.ltb_lt].
  - intros Hdated.
    apply (sort_sorted (fun set => getTime (released_at set)) kept).
    apply List.Forall_forall. intros set Hin.
    apply Hdated. now apply (Permutation_in _ Hperm).
Qed.

End ClientFacts.

(** ** The properties on the sample services *)

(** C4. The claim asks for a thrown error when a page after the first is
    refused with status 404.  On a service that delivers one card on the
    first page of the main search, announces a second page and answers 404
    for it, [fetchInstantsFromSet] throws nothing: it returns the empty
    sequence, under the comment that the set has no instant-speed cards,
    and drops the card it has read.  [fetchCounterspellIds], on the same
    kind of answer, keeps the ids it has read. *)
Theorem C4_not_found_on_page_two :
  let first := cardsPage [bolt] (Some secondPage) in
  remoteTruncated (instantsUrl plainEncode "neo") tt = (inl first, tt) /\
  ok first = true /\
  nextUrl (json_cards first) = Some secondPage /\
  remoteTruncated secondPage tt = (inl (refusal 404), tt) /\
  fetchInstantsFromSet plainEncode remoteTruncated 5 "neo" tt = (Returned [], tt) /\
  (forall e,
     fetchInstantsFromSet plainEncode remoteTruncated 5 "neo" tt <> (Thrown e, tt)) /\
  fetchCounterspellIds plainEncode remoteTruncated 5 "neo" tt =
    (Returned {[ "negate" ]}, tt).
Proof.
  assert (fetchInstantsFromSet plainEncode remoteTruncated 5 "neo" tt =
          (Returned [], tt)) as Hrun by (vm_compute; reflexivity).
  repeat split; try (vm_compute; reflexivity).
  intros e. rewrite Hrun. discriminate.
Qed.

Example fetchInstantsFromSet_sample :
  fetchInstantsFromSet plainEncode remoteNeo 3 "neo" tt =
  (Returned [markCounterspell {[ "negate" ]} bolt;
             markCounterspell {[ "negate" ]} negate], tt).
Proof. vm_compute. reflexivity. Qed.

Lemma C5_counterspell_flag_witness :
  let cards := [markCounterspell {[ "negate" ]} bolt;
                markCounterspell {[ "negate" ]} negate] in
  fetchInstantsFromSet plainEncode remoteNeo 3 "neo" tt = (Returned cards, tt) /\
  (cards = [] \/
   exists mainCards spgCards counterspellIds spgCounterspellIds,
     fetchCounterspellIds plainEncode remoteNeo 3 "neo" tt =
       (Returned counterspellIds, tt) /\
     fetchSpecialGuestsCounterspellIds plainEncode remoteNeo 3 "neo" tt =
       (Returned spgCounterspellIds, tt) /\
     Forall2
       (fun card fetched =>
          isCounterspell card =
            Some (bool_decide (id card ∈ counterspellIds ∪ spgCounterspellIds)) /\
          sameOtherFields card fetched)
       cards (mainCards ++ spgCards)).
Proof.
  intros cards.
  assert (fetchInstantsFromSet plainEncode remoteNeo 3 "neo" tt =
          (Returned cards, tt)) as Hrun by (vm_compute; reflexivity).
  split; [exact Hrun|].
  destruct (C5_counterspell_flag plainEncode remoteNeo 3 "neo" tt tt cards Hrun)
    as [Hnil|(mainCards & spgCards & ids & spgIds & w1 & w2 & w3 &
              _ & _ & Hids & HspgIds & Hall)].
  - now left.
  - right. destruct w1, w2, w3. now exists mainCards, spgCards, ids, spgIds.
Defined.

Lemma C6_not_found_is_empty_witness :
  (remoteNone (counterspellUrl plainEncode "neo") tt = (inl (refusal 404), tt) /\
   ok (refusal 404) = false /\ status (refusal 404) = 404%Z /\
   fetchInstantsFromSet plainEncode remoteNone 1 "neo" tt = (Returned [], tt) /\
   fetchCounterspellIds plainEncode remoteNone 1 "neo" tt = (Returned ∅, tt)) /\
  (Refused remoteTruncated (Some (counterspellUrl plainEncode "neo")) tt
     [cardsPage [negate] (Some secondPage)] (refusal 404) tt /\
   exists ids,
     fetchCounterspellIds plainEncode remoteTruncated 2 "neo" tt =
       (Returned ids, tt)) /\
  (Pages remoteBare (Some (instantsUrl plainEncode "neo")) tt
     [cardsPage [bolt; negate] None] None tt /\
   exists cards,
     fetchInstantsFromSet plainEncode remoteBare 1 "neo" tt = (Returned cards, tt)) /\
  (fetchInstantsFromSet plainEncode remoteDown 1 "neo" tt =
     (Thrown (Error "Failed to fetch cards"), tt) /\
   exists start w0 pages response,
     Refused remoteDown start w0 pages response tt /\ status response <> 404%Z).
Proof.
  assert (forall remote start,
            truthy (Some start) = Some start ->
            remote start tt = (inl (refusal 404), tt) ->
            Refused remote (Some start) tt [] (refusal 404) tt) as Hfirst.
  { intros remote start Hstart Hf. exists (Some start), start, tt.
    split; [constructor|]. split; [exact Hstart|]. now split. }
  split; [|split; [|split]].
  - destruct (proj1 (C6_not_found_is_empty plainEncode remoteNone 0 "neo" tt tt)
                (refusal 404) eq_refl eq_refl) as (Hinstants & _ & Hids & _).
    split; [reflexivity|]. split; [reflexivity|]. split; [reflexivity|].
    split; [exact (Hinstants eq_refl) | exact (Hids eq_refl)].
  - assert (Refused remoteTruncated (Some (counterspellUrl plainEncode "neo")) tt
              [cardsPage [negate] (Some secondPage)] (refusal 404) tt) as Href.
    { exists (Some secondPage), secondPage, tt.
      split; [|split; [reflexivity | now split]].
      econstructor; [reflexivity | reflexivity | reflexivity | constructor]. }
    split; [exact Href|].
    destruct (proj1 (proj2 (C6_not_found_is_empty plainEncode remoteTruncated 2
                              "neo" tt tt))
                _ _ _ Href eq_refl (le_n 2)) as (_ & _ & Hids & _).
    exact (Hids eq_refl).
  - assert (Pages remoteBare (Some (instantsUrl plainEncode "neo")) tt
              [cardsPage [bolt; negate] None] None tt) as Hpages
      by (econstructor; [reflexivity | reflexivity | reflexivity | constructor]).
    split; [exact Hpages|].
    exact (proj1 (proj2 (proj2 (C6_not_found_is_empty plainEncode remoteBare 1
                                  "neo" tt tt)))
             _ None tt [] (refusal 404) tt [] (refusal 404) tt [] (refusal 404)
             Hpages eq_refl (le_n 1)
             (Hfirst remoteBare (specialGuestsUrl plainEncode "neo")
                eq_refl eq_refl)
             (Hfirst remoteBare (counterspellUrl plainEncode "neo")
                eq_refl eq_refl)
             (Hfirst remoteBare (specialGuestsCounterspellUrl plainEncode "neo")
                eq_refl eq_refl)
             eq_refl eq_refl eq_refl (le_n 1) (le_n 1) (le_n 1)).
  - assert (fetchInstantsFromSet plainEncode remoteDown 1 "neo" tt =
            (Thrown (Error "Failed to fetch cards"), tt)) as Hrun
      by (vm_compute; reflexivity).
    split; [exact Hrun|].
    exact (proj2 (proj2 (proj2 (C6_not_found_is_empty plainEncode remoteDown 1
                                  "neo" tt tt)))
             "Failed to fetch cards" (or_introl Hrun)).
Defined.

Example fetchSets_sample :
  fetchSets sampleTime remoteSets tt =
  (Returned [sampleSet "mkm" "expansion" "2024-02-09" 286;
             sampleSet "neo" "expansion" "2022-02-18" 512;
             sampleSet "m21" "core" "2020-07-03" 397], tt).
Proof. vm_compute. reflexivity. Qed.

(** C7, as stated, fails on a response with a release date that is no
    date: the comparator answers [NaN] for every pair with that set, the
    three sets stay in the order of the response, and the set of 2020
    comes before the set of 2024. *)
Lemma C7_counterexample_unparseable_date :
  let old := sampleSet "m21" "core" "2020-07-03" 397 in
  let bad := sampleSet "bad" "expansion" "not-a-date" 100 in
  let new := sampleSet "mkm" "expansion" "2024-02-09" 286 in
  remoteUndated "https://api.scryfall.com/sets" tt =
    (inl (setsPage [old; bad; new]), tt) /\
  sampleTime (released_at bad) = None /\
  fetchSets sampleTime remoteUndated tt = (Returned [old; bad; new], tt) /\
  (exists told tnew,
     sampleTime (released_at old) = Some told /\
     sampleTime (released_at new) = Some tnew /\ (told < tnew)%Z) /\
  ~ StronglySorted (notEarlier (fun set => sampleTime (released_at set)))
      [old; bad; new].
Proof.
  intros old bad new.
  split; [reflexivity|]. split; [reflexivity|].
  split; [vm_compute; reflexivity|]. split.
  - exists 1593734400000%Z, 1707436800000%Z.
    split; [reflexivity|]. split; [reflexivity | reflexivity].
  - intros Hsorted. apply StronglySorted_inv in Hsorted as [_ Hold].
    apply Forall_cons in Hold as [Hbad _]. exact Hbad.
Qed.

Lemma C7_fetchSets_filtered_sorted_witness :
  remoteSets "https://api.scryfall.com/sets" tt = (inl (setsPage sampleSets), tt) /\
  ok (setsPage sampleSets) = true /\
  exists sets,
    fetchSets sampleTime remoteSets tt = (Returned sets, tt) /\
    Forall (fun set => In (set_type set) validTypes /\ (0 < card_count set)%Z) sets /\
    (forall set,
       In set (data (json_sets (setsPage sampleSets))) ->
       In (set_type set) validTypes -> (0 < card_count set)%Z ->
       In set sets) /\
    (forall set, In set sets -> sampleTime (released_at set) <> None) /\
    StronglySorted (notEarlier (fun set => sampleTime (released_at set))) sets.
Proof.
  split; [reflexivity|]. split; [reflexivity|].
  destruct (C7_fetchSets_filtered_sorted sampleTime remoteSets tt tt
              (setsPage sampleSets) eq_refl eq_refl)
    as (sets & Hrun & Hkept & Hall & Hsorted).
  assert (forall set, In set sets -> sampleTime (released_at set) <> None)
    as Hdated.
  { intros set Hin. rewrite fetchSets_sample in Hrun. injection Hrun as <-.
    cbn [In] in Hin.
    destruct Hin as [<-|[<-|[<-|[]]]]; discriminate. }
  exists sets. split; [exact Hrun|]. split; [exact Hkept|].
  split; [exact Hall|]. split; [exact Hdated | exact (Hsorted Hdated)].
Defined.

(** * Further properties of the mana evaluator *)

(** ** What the tokenizer returns *)

Lemma startsWith_app (p rest : string) : JS.startsWith p (p +:+ rest) = true.
Proof.
  induction p as [|c p IH]; [reflexivity|].
  rewrite append_cons. cbn [JS.startsWith]. now rewrite Ascii.eqb_refl, IH.
Qed.

Lemma includes_cons (sub : string) (c : ascii) (s : string) :
  JS.includes sub s = true -> JS.includes sub (String c s) = true.
Proof. intros H. cbn [JS.includes]. rewrite H. apply orb_true_r. Qed.

Lemma includes_startsWith (sub s : string) :
  JS.startsWith sub s = true -> JS.includes sub s = true.
Proof. intros H. destruct s; cbn [JS.includes]; now rewrite H. Qed.

Lemma match_here_prefix (s tok : string) :
  match_here s = Some tok -> JS.startsWith tok s = true.
Proof.
  unfold match_here. destruct s as [|c r]; [discriminate|].
  destruct (Ascii.eqb c open_brace) eqn:Hc; [|discriminate].
  apply Ascii.eqb_eq in Hc. subst c.
  destruct (body_close r) as [[b rest]|] eqn:Hr; [|discriminate].
  intros [= <-]. apply body_close_sound in Hr as (_ & _ & ->).
  fold closing. cbn [JS.startsWith]. rewrite Ascii.eqb_refl. cbn [andb].
  rewrite <- append_assoc. apply startsWith_app.
Qed.

Lemma match_all_includes (s : string) :
  forall skip tok, In tok (match_all skip s) -> JS.includes tok s = true.
Proof.
  induction s as [|c r IH]; intros skip tok Hin; [destruct Hin|].
  destruct skip as [|k].
  - change (match_all 0 (String c r)) with
      (match match_here (String c r) with
       | Some t => t :: match_all (String.length t - 1) r
       | None => match_all 0 r
       end) in Hin.
    destruct (match_here (String c r)) as [t|] eqn:Hm.
    + destruct Hin as [<-|Hin].
      * apply includes_startsWith. now apply match_here_prefix.
      * apply includes_cons. now apply (IH _ _ Hin).
    + apply includes_cons. now apply (IH _ _ Hin).
  - apply includes_cons. now apply (IH k).
Qed.

(** X1. Whatever the cost string is, every token of [parseManaSymbols] is
    a bracketed symbol and occurs in the cost string. *)
Theorem X1_tokens_are_symbols_of_the_cost (manaCost tok : string) :
  In tok (parseManaSymbols manaCost) ->
  isSymbol tok = true /\ JS.includes tok manaCost = true.
Proof.
  intros Hin. split.
  - pose proof (match_all_symbols manaCost 0) as Hall.
    rewrite forallb_forall in Hall. now apply Hall.
  - now apply (match_all_includes manaCost 0).
Qed.

Lemma X1_tokens_are_symbols_of_the_cost_witness :
  In "{1}" (parseManaSymbols "{{a} x}{1}} {") /\
  isSymbol "{1}" = true /\ JS.includes "{1}" "{{a} x}{1}} {" = true.
Proof.
  assert (In "{1}" (parseManaSymbols "{{a} x}{1}} {")) as Hin
    by (vm_compute; right; left; reflexivity).
  split; [exact Hin|].
  exact (X1_tokens_are_symbols_of_the_cost "{{a} x}{1}} {" "{1}" Hin).
Defined.

Lemma append_empty_r (s : string) : s +:+ EmptyString = s.
Proof.
  induction s as [|c s IH]; [reflexivity|]. now rewrite append_cons, IH.
Qed.

Lemma match_all_no_open (junk rest : string) :
  no_open junk = true -> match_all 0 (junk +:+ rest) = match_all 0 rest.
Proof.
  induction junk as [|c junk IH]; intros H; [reflexivity|].
  cbn [no_open] in H. apply andb_prop in H as [Hc Hjunk].
  apply negb_true_iff in Hc. rewrite append_cons.
  change (match_all 0 (String c (junk +:+ rest))) with
    (match match_here (String c (junk +:+ rest)) with
     | Some t => t :: match_all (String.length t - 1) (junk +:+ rest)
     | None => match_all 0 (junk +:+ rest)
     end).
  cbn [match_here]. rewrite Hc. now apply IH.
Qed.

(** X2. Text between the symbols that has no opening brace is skipped: of
    a cost string [sep1 tok1 sep2 tok2 ... tail], [parseManaSymbols]
    returns [tok1, tok2, ...]. *)
Theorem X2_separators_are_skipped (pieces : list (string * string)) (tail : string) :
  forallb (fun piece => no_open (fst piece) && isSymbol (snd piece)) pieces = true ->
  no_open tail = true ->
  parseManaSymbols (withSeparators pieces tail) = List.map snd pieces.
Proof.
  intros Hpieces Htail. unfold parseManaSymbols.
  induction pieces as [|[sep tok] pieces IH]; cbn [withSeparators fold_right List.map].
  - rewrite <- (append_empty_r tail). now rewrite match_all_no_open.
  - cbn [forallb fst snd] in *. apply andb_prop in Hpieces as [Hhead Hrest].
    apply andb_prop in Hhead as [Hsep Htok].
    rewrite (match_all_no_open _ _ Hsep), (match_all_symbol _ _ Htok).
    f_equal. now apply IH.
Qed.

Lemma X2_separators_are_skipped_witness :
  let pieces := [("", "{1}"); ("", "{R}"); (" // ", "{1}"); ("", "{U}")] in
  forallb (fun piece => no_open (fst piece) && isSymbol (snd piece)) pieces = true /\
  no_open "" = true /\
  withSeparators pieces "" = "{1}{R} // {1}{U}" /\
  parseManaSymbols (withSeparators pieces "") = ["{1}"; "{R}"; "{1}"; "{U}"].
Proof.
  intros pieces.
  assert (forallb (fun piece => no_open (fst piece) && isSymbol (snd piece))
            pieces = true) as Hpieces by (vm_compute; reflexivity).
  split; [exact Hpieces|]. split; [reflexivity|]. split; [reflexivity|].
  exact (X2_separators_are_skipped pieces "" Hpieces eq_refl).
Defined.

(** ** Counting Phyrexian symbols *)

Lemma countPhyrexianLoop_bounds (symbols : list string) :
  forall count,
    (count <= countPhyrexianLoop symbols count <=
     count + Z.of_nat (List.length symbols))%Z.
Proof.
  induction symbols as [|symbol rest IH]; intros count;
    cbn [countPhyrexianLoop List.length].
  - lia.
  - destruct (JS.includes "/P" (JS.slice 1 (-1) symbol)).
    + specialize (IH (count + 1)%Z). lia.
    + specialize (IH count). lia.
Qed.

(** X3. The Phyrexian count of a card lies between zero and the number of
    symbols of its resolved cost. *)
Theorem X3_countPhyrexianMana_bounds (card : ScryfallCard) :
  (0 <= countPhyrexianMana card <=
   Z.of_nat (List.length (parseManaSymbols (resolveManaCost card))))%Z.
Proof.
  unfold countPhyrexianMana.
  destruct (String.eqb (resolveManaCost card) ""); [lia|].
  pose proof (countPhyrexianLoop_bounds
                (parseManaSymbols (resolveManaCost card)) 0). lia.
Qed.

(** ** Mana value targets *)

Lemma countPhyrexianMana_nonneg (card : ScryfallCard) :
  (0 <= countPhyrexianMana card)%Z.
Proof.
  unfold countPhyrexianMana.
  destruct (String.eqb (resolveManaCost card) ""); [lia|].
  pose proof (countPhyrexianLoop_bounds
                (parseManaSymbols (resolveManaCost card)) 0). lia.
Qed.

(** X4. Every card matches the target that equals its own mana value
    rounded down, whatever its cost is. *)
Theorem X4_card_matches_its_own_value (card : ScryfallCard) :
  cardMatchesManaValue card (inject_Z (Qfloor (cmc card))) = true.
Proof.
  unfold cardMatchesManaValue.
  pose proof (countPhyrexianMana_nonneg card) as Hp.
  destruct (Qeq_bool (inject_Z (Qfloor (cmc card))) 10) eqn:Hten.
  - apply Qeq_bool_iff in Hten. apply Z.leb_le.
    unfold Qeq in Hten. cbn in Hten. lia.
  - assert (Binary64.roundInteger (Qfloor (cmc card) - countPhyrexianMana card)
            <= Qfloor (cmc card))%Z as Hmin.
    { rewrite <- (floor_of_double (cmc card) (dfinite (cmc card))) at 2.
      apply roundInteger_mono. lia. }
    apply andb_true_intro. split; apply Qle_bool_iff; rewrite <- Zle_Qle; lia.
Qed.

(** X5. No card matches a target above its mana value rounded down; this
    holds for the target 10 as for every other. *)
Theorem X5_no_match_above_the_value (card : ScryfallCard) (target : Q) :
  (inject_Z (Qfloor (cmc card)) < target)%Q ->
  cardMatchesManaValue card target = false.
Proof.
  intros Habove. unfold cardMatchesManaValue.
  destruct (Qeq_bool target 10) eqn:Hten.
  - apply Qeq_bool_iff in Hten. rewrite Hten in Habove.
    apply Z.leb_gt. change 10%Q with (inject_Z 10) in Habove.
    now rewrite <- Zlt_Qlt in Habove.
  - apply andb_false_intro2. apply not_true_is_false. intros Hle.
    apply Qle_bool_iff in Hle. apply (Qlt_not_le _ _ Habove Hle).
Qed.

Lemma X5_no_match_above_the_value_witness :
  let card := sampleCard "x5" "{7}{B/P}{B/P}" (19 # 2) in
  (inject_Z (Qfloor (cmc card)) < 10)%Q /\
  cardMatchesManaValue card 10 = false.
Proof.
  intros card.
  assert (inject_Z (Qfloor (cmc card)) < 10)%Q as Habove by reflexivity.
  split; [exact Habove|].
  exact (X5_no_match_above_the_value card 10 Habove).
Defined.

(** ** Castability by kind of symbol *)

Lemma test_color_fiveColors (color : string) :
  JS.test_color color = true -> In color fiveColors.
Proof.
  unfold JS.test_color, fiveColors.
  destruct color as [|c [|d rest]]; try discriminate.
  intros H. repeat (apply orb_prop in H as [H|H]);
    apply Ascii.eqb_eq in H; subst c; cbn; tauto.
Qed.

Lemma symbolPayable_all_colors (A : list string) (symbol : string) :
  (forall color, In color fiveColors -> In color A) ->
  symbolPayable A symbol = true.
Proof.
  intros Hall. unfold symbolPayable.
  set (content := JS.slice 1 (-1) symbol).
  destruct (JS.test_digits content || String.eqb content "X"); [reflexivity|].
  destruct (JS.includes "/" content).
  - rewrite length_test.
    destruct (List.filter JS.test_color (JS.split "/" content))
      as [|part parts] eqn:Hparts; [reflexivity|].
    assert (JS.test_color part = true) as Hpart.
    { assert (In part (List.filter JS.test_color (JS.split "/" content))) as Hin
        by (rewrite Hparts; now left).
      now apply filter_In in Hin. }
    cbn [existsb].
    assert (JS.arr_includes part A = true) as ->
      by (apply arr_includes_In, Hall, test_color_fiveColors, Hpart).
    reflexivity.
  - destruct (JS.endsWith "P" content && _); [reflexivity|].
    destruct (JS.test_color content) eqn:Hcolor; [|reflexivity].
    assert (JS.arr_includes content A = true) as ->
      by (apply arr_includes_In, Hall, test_color_fiveColors, Hcolor).
    reflexivity.
Qed.

(** X6. With all five colors available every card is castable. *)
Theorem X6_castable_with_all_colors (card : ScryfallCard) (A : list string) :
  (forall color, In color fiveColors -> In color A) ->
  isCardCastableWithColors card A = true.
Proof.
  intros Hall. unfold isCardCastableWithColors.
  destruct (String.eqb (resolveManaCost card) ""); [reflexivity|].
  induction (parseManaSymbols (resolveManaCost card)) as [|symbol rest IH];
    [reflexivity|].
  cbn [castableLoop]. now rewrite (symbolPayable_all_colors A symbol Hall).
Qed.

Lemma X6_castable_with_all_colors_witness :
  let card := sampleCard "x6" "{2}{W/U}{B/P}{R}{G}" 6 in
  (forall color, In color fiveColors -> In color ["G"; "R"; "B"; "U"; "W"]) /\
  isCardCastableWithColors card ["G"; "R"; "B"; "U"; "W"] = true.
Proof.
  intros card.
  assert (forall color, In color fiveColors -> In color ["G"; "R"; "B"; "U"; "W"])
    as Hall by (unfold fiveColors; cbn; tauto).
  split; [exact Hall|].
  exact (X6_castable_with_all_colors card _ Hall).
Defined.

Lemma symbolPayable_colorFree (A : list string) (symbol : string) :
  colorFree symbol = true -> symbolPayable A symbol = true.
Proof.
  unfold colorFree, symbolContent, symbolPayable. intros H.
  apply andb_prop in H as [Hslash Hcolor].
  apply negb_true_iff in Hslash. apply negb_true_iff in Hcolor.
  rewrite Hslash, Hcolor.
  destruct (JS.test_digits _ || String.eqb _ "X"); [reflexivity|].
  destruct (JS.endsWith "P" _ && _); reflexivity.
Qed.

(** X7. A card whose cost has only symbols that are no color letter and
    contain no slash (generic numbers, [X], snow, colorless) is castable
    with any colors, also with none. *)
Theorem X7_colorFree_costs_are_castable (card : ScryfallCard) (A : list string) :
  forallb colorFree (parseManaSymbols (resolveManaCost card)) = true ->
  isCardCastableWithColors card A = true.
Proof.
  unfold isCardCastableWithColors. intros Hfree.
  destruct (String.eqb (resolveManaCost card) ""); [reflexivity|].
  induction (parseManaSymbols (resolveManaCost card)) as [|symbol rest IH];
    [reflexivity|].
  cbn [forallb] in Hfree. apply andb_prop in Hfree as [Hsymbol Hrest].
  cbn [castableLoop]. rewrite (symbolPayable_colorFree A symbol Hsymbol).
  now apply IH.
Qed.

Lemma X7_colorFree_costs_are_castable_witness :
  let card := sampleCard "x7" "{X}{2}{S}{C}{10}" 13 in
  forallb colorFree (parseManaSymbols (resolveManaCost card)) = true /\
  isCardCastableWithColors card [] = true.
Proof.
  intros card.
  assert (forallb colorFree (parseManaSymbols (resolveManaCost card)) = true)
    as Hfree by (vm_compute; reflexivity).
  split; [exact Hfree|].
  exact (X7_colorFree_costs_are_castable card [] Hfree).
Defined.

Ltac each_color H :=
  apply test_color_fiveColors in H; unfold fiveColors in H; cbn [In] in H;
  repeat (destruct H as [H|H]); try contradiction; subst.

(** X8. A card whose whole cost is one color symbol is castable exactly
    when that color is among the available colors. *)
Theorem X8_single_color_symbol (card : ScryfallCard) (color : string)
    (A : list string) :
  JS.test_color color = true ->
  resolveManaCost card = bracket color ->
  isCardCastableWithColors card A = JS.arr_includes color A.
Proof.
  intros Hcolor Hcost. unfold isCardCastableWithColors. rewrite Hcost.
  each_color Hcolor; cbv -[JS.arr_includes];
    match goal with |- context [JS.arr_includes ?c A] =>
      destruct (JS.arr_includes c A); reflexivity end.
Qed.

Lemma X8_single_color_symbol_witness :
  let card := sampleCard "x8" "{U}" 1 in
  JS.test_color "U" = true /\ resolveManaCost card = bracket "U" /\
  isCardCastableWithColors card ["W"; "B"] = JS.arr_includes "U" ["W"; "B"] /\
  isCardCastableWithColors card ["W"; "U"] = JS.arr_includes "U" ["W"; "U"].
Proof.
  intros card. split; [reflexivity|]. split; [reflexivity|].
  split; exact (X8_single_color_symbol card "U" _ eq_refl eq_refl).
Defined.

(** X9. A card whose whole cost is one hybrid symbol of two colors is
    castable exactly when one of the two colors is among the available
    colors. *)
Theorem X9_two_color_hybrid_symbol (card : ScryfallCard) (first second : string)
    (A : list string) :
  JS.test_color first = true -> JS.test_color second = true ->
  resolveManaCost card = bracket (first +:+ "/" +:+ second) ->
  isCardCastableWithColors card A =
  JS.arr_includes first A || JS.arr_includes second A.
Proof.
  intros Hfirst Hsecond Hcost. unfold isCardCastableWithColors. rewrite Hcost.
  each_color Hfirst; each_color Hsecond; cbv -[JS.arr_includes];
    repeat match goal with |- context [JS.arr_includes ?c A] =>
      destruct (JS.arr_includes c A) end; reflexivity.
Qed.

Lemma X9_two_color_hybrid_symbol_witness :
  let card := sampleCard "x9" "{G/W}" 1 in
  JS.test_color "G" = true /\ JS.test_color "W" = true /\
  resolveManaCost card = bracket ("G" +:+ "/" +:+ "W") /\
  isCardCastableWithColors card ["U"; "W"] =
    JS.arr_includes "G" ["U"; "W"] || JS.arr_includes "W" ["U"; "W"] /\
  isCardCastableWithColors card ["U"; "R"] =
    JS.arr_includes "G" ["U"; "R"] || JS.arr_includes "W" ["U"; "R"].
Proof.
  intros card. split; [reflexivity|]. split; [reflexivity|]. split; [reflexivity|].
  split; exact (X9_two_color_hybrid_symbol card "G" "W" _ eq_refl eq_refl eq_refl).
Defined.

(** X10. Castability depends on which colors are available only: two
    lists with the same elements, in any order and with any repetitions,
    give the same answer. *)
Theorem X10_castable_same_colors (card : ScryfallCard) (A B : list string) :
  (forall color, In color A <-> In color B) ->
  isCardCastableWithColors card A = isCardCastableWithColors card B.
Proof.
  intros Hsame. unfold isCardCastableWithColors.
  destruct (String.eqb (resolveManaCost card) ""); [reflexivity|].
  set (symbols := parseManaSymbols (resolveManaCost card)).
  destruct (castableLoop A symbols) eqn:HA, (castableLoop B symbols) eqn:HB;
    try reflexivity.
  - apply (castableLoop_mono A B) in HA; [congruence | apply Hsame].
  - apply (castableLoop_mono B A) in HB; [congruence | apply Hsame].
Qed.

Lemma X10_castable_same_colors_witness :
  let card := sampleCard "x10" "{1}{G/W}{U}" 3 in
  (forall color, In color ["U"; "G"; "U"] <-> In color ["G"; "U"]) /\
  isCardCastableWithColors card ["U"; "G"; "U"] =
  isCardCastableWithColors card ["G"; "U"].
Proof.
  intros card.
  assert (forall color, In color ["U"; "G"; "U"] <-> In color ["G"; "U"]) as Hsame
    by (intros color; cbn; tauto).
  split; [exact Hsame|].
  exact (X10_castable_same_colors card _ _ Hsame).
Defined.

(** ** Oracle text *)

Lemma includes_app_r (sub s rest : string) :
  JS.includes sub s = true -> JS.includes sub (s +:+ rest) = true.
Proof.
  assert (forall p t, JS.startsWith p t = true ->
                      JS.startsWith p (t +:+ rest) = true) as Hstarts.
  { induction p as [|a p IH]; intros t H; [reflexivity|].
    destruct t as [|b t]; [discriminate|].
    rewrite append_cons. cbn [JS.startsWith] in *.
    apply andb_prop in H as [Hab H]. now rewrite Hab, (IH _ H). }
  induction s as [|c s IH]; intros H.
  - cbn [JS.includes] in H. rewrite orb_false_r in H.
    destruct sub; [|discriminate]. now destruct rest.
  - cbn [JS.includes] in H. apply orb_prop in H as [H|H].
    + apply includes_startsWith. now apply Hstarts.
    + rewrite append_cons. apply includes_cons. now apply IH.
Qed.

Lemma includes_app_l (sub pre s : string) :
  JS.includes sub s = true -> JS.includes sub (pre +:+ s) = true.
Proof.
  intros H. induction pre as [|c pre IH]; [exact H|].
  rewrite append_cons. now apply includes_cons.
Qed.

Lemma includes_refl (s : string) : JS.includes s s = true.
Proof.
  apply includes_startsWith. rewrite <- (append_empty_r s) at 2.
  apply startsWith_app.
Qed.

Lemma joinWith_includes (sep : string) (arr : list string) (x : string) :
  In x arr -> JS.includes x (JS.joinWith sep arr) = true.
Proof.
  induction arr as [|a rest IH]; intros Hin; [destruct Hin|].
  destruct rest as [|b rest].
  - destruct Hin as [<-|[]]. apply includes_refl.
  - change (JS.joinWith sep (a :: b :: rest)) with
      (a +:+ sep +:+ JS.joinWith sep (b :: rest)).
    destruct Hin as [<-|Hin].
    + apply includes_app_r, includes_refl.
    + apply includes_app_l, includes_app_l. now apply IH.
Qed.

(** X11. For a card without oracle text of its own, [getOracleText]
    contains the text of every face; with a single face it is that text,
    and with no face at all it is empty. *)
Theorem X11_oracle_text_of_faces (card : ScryfallCard) (faces : list CardFace) :
  oracle_text card = "" ->
  card_faces card = Some faces ->
  (forall face, In face faces ->
     JS.includes (face_oracle_text face) (getOracleText card) = true) /\
  (forall face, faces = [face] -> getOracleText card = face_oracle_text face) /\
  (faces = [] -> getOracleText card = "").
Proof.
  intros Htext Hfaces. unfold getOracleText. rewrite Htext, Hfaces.
  cbn [String.eqb negb]. repeat split.
  - intros face Hin. apply joinWith_includes. now apply in_map.
  - now intros face ->.
  - now intros ->.
Qed.

Lemma X11_oracle_text_of_faces_witness :
  let front := sampleFace "Counter target spell." "{1}{U}" in
  let back := sampleFace "Draw a card." "{2}{U}" in
  let card := facedCard [front; back] in
  oracle_text card = "" /\ card_faces card = Some [front; back] /\
  JS.includes "Draw a card." (getOracleText card) = true /\
  getOracleText card =
    "Counter target spell." +:+ faceSeparator +:+ "Draw a card.".
Proof.
  intros front back card. split; [reflexivity|]. split; [reflexivity|].
  split; [|reflexivity].
  exact (proj1 (X11_oracle_text_of_faces card [front; back] eq_refl eq_refl)
           back (or_intror (or_introl eq_refl))).
Defined.

(** * Further properties of the catalog client *)

(** ** The sort keeps what it is given *)

Section SortMore.
Context {T : Type} (key : T -> option Z).

Lemma sortInsert_stable (date : Z) (a : T) (arr : list T) :
  List.filter (fun x => timeIs date (key x)) (sortInsert (laterFirst key) a arr) =
  List.filter (fun x => timeIs date (key x)) (a :: arr).
Proof.
  induction arr as [|b rest IH]; [reflexivity|].
  cbn [sortInsert].
  destruct (0 <? sortCompare (laterFirst key) a b)%Z eqn:Hcmp; [|reflexivity].
  apply sortCompare_moves in Hcmp as (ta & tb & Ha & Hb & Hlt).
  cbn [List.filter] in *. rewrite IH, Ha, Hb. cbn [timeIs].
  destruct (tb =? date)%Z eqn:Hdate; [|reflexivity].
  apply Z.eqb_eq in Hdate.
  assert ((ta =? date)%Z = false) as -> by (apply Z.eqb_neq; lia).
  reflexivity.
Qed.

Lemma sort_stable (date : Z) (arr : list T) :
  List.filter (fun x => timeIs date (key x)) (sort (laterFirst key) arr) =
  List.filter (fun x => timeIs date (key x)) arr.
Proof.
  induction arr as [|a rest IH]; [reflexivity|].
  cbn [sort fold_right]. rewrite sortInsert_stable.
  cbn [List.filter]. fold (sort (laterFirst key) rest). now rewrite IH.
Qed.

End SortMore.

Section ClientMore.
Context {World : Type}.
Variable encodeURIComponent : string -> string.
Variable getTime : string -> option Z.
Variable fetch : string -> World -> (Response + string) * World.

Local Abbreviation instants := (fetchInstantsFromSet encodeURIComponent fetch).
Local Abbreviation specialGuests := (fetchSpecialGuestsFromSet encodeURIComponent fetch).
Local Abbreviation counterspells := (fetchCounterspellIds encodeURIComponent fetch).
Local Abbreviation specialGuestsCounterspells :=
  (fetchSpecialGuestsCounterspellIds encodeURIComponent fetch).
Local Abbreviation keptSets response :=
  (List.filter
     (fun set => JS.arr_includes (set_type set) validTypes && (0 <? card_count set)%Z)
     (data (json_sets response))).

(** ** [fetchSets] *)

(** X12. [fetchSets] has no special case for 404: every non-success
    response to the request for the sets makes it throw its error, and a
    rejected request makes it throw the transport failure.  It never waits
    for a further response. *)
Theorem X12_fetchSets_failures (w w' : World) :
  (forall response,
     fetch "https://api.scryfall.com/sets" w = (inl response, w') ->
     ok response = false ->
     fetchSets getTime fetch w = (Thrown (Error "Failed to fetch sets"), w')) /\
  (forall reason,
     fetch "https://api.scryfall.com/sets" w = (inr reason, w') ->
     fetchSets getTime fetch w = (Thrown (TransportFailure reason), w')) /\
  fst (fetchSets getTime fetch w) <> Unsettled.
Proof.
  unfold fetchSets, bind, awaitFetch. repeat split.
  - intros response Hf Hok. now rewrite Hf, Hok.
  - intros reason Hf. now rewrite Hf.
  - destruct (fetch "https://api.scryfall.com/sets" w) as [[response|reason] w1];
      [|discriminate].
    destruct (ok response); discriminate.
Qed.

(** X13. The sequence returned by [fetchSets] is a rearrangement of the
    sets of the response that pass the filter: none is dropped and none is
    repeated.  When the release date of each of them is a date, sets with
    the same release time keep the order they have in the response. *)
Theorem X13_fetchSets_rearranges_stably (w w' : World) (response : Response) :
  fetch "https://api.scryfall.com/sets" w = (inl response, w') ->
  ok response = true ->
  exists sets,
    fetchSets getTime fetch w = (Returned sets, w') /\
    Permutation (keptSets response) sets /\
    ((forall set, In set (keptSets response) ->
        getTime (released_at set) <> None) ->
     forall date,
       List.filter (fun set => timeIs date (getTime (released_at set))) sets =
       List.filter (fun set => timeIs date (getTime (released_at set)))
         (keptSets response)).
Proof.
  intros Hf Hok. unfold fetchSets, bind, awaitFetch. rewrite Hf, Hok. cbn [negb].
  eexists. split; [reflexivity|]. split.
  - apply sort_Permutation.
  - intros _ date.
    exact (sort_stable (fun set => getTime (released_at set)) date _).
Qed.

(** ** Pagination that runs to its end *)

(** X14. When the special-guest search runs through its pages to a page
    that announces no further one, [fetchSpecialGuestsFromSet] returns the
    cards of all pages, in the order of the pages and of the cards on
    them; as many loop iterations as there are pages suffice. *)
Theorem X14_specialGuests_all_pages (fuel : nat) (setCode : string)
    (w w' : World) (pages : list Response) (url : option string) :
  Pages fetch (Some (specialGuestsUrl encodeURIComponent setCode)) w pages url w' ->
  truthy url = None ->
  (List.length pages <= fuel)%nat ->
  specialGuests fuel setCode w = (Returned (pageCards pages), w').
Proof.
  intros Hpages Hend Hfuel. unfold fetchSpecialGuestsFromSet, bind.
  now rewrite (paginateCards_complete fetch _ _ _ _ _ _ _ [] Hpages Hend Hfuel).
Qed.

(** X15. When a counterspell query runs through its pages to the end, the
    set it returns holds exactly the ids of the cards on those pages. *)
Theorem X15_counterspell_ids_exact (fuel : nat) (setCode start : string)
    (w w' : World) (pages : list Response) (url : option string) :
  Pages fetch (Some start) w pages url w' ->
  truthy url = None ->
  (List.length pages <= fuel)%nat ->
  exists ids,
    (forall x, x ∈ ids <-> exists card, In card (pageCards pages) /\ id card = x) /\
    (start = counterspellUrl encodeURIComponent setCode ->
       counterspells fuel setCode w = (Returned ids, w')) /\
    (start = specialGuestsCounterspellUrl encodeURIComponent setCode ->
       specialGuestsCounterspells fuel setCode w = (Returned ids, w')).
Proof.
  intros Hpages Hend Hfuel. exists (addIds ∅ (pageCards pages)). split; [|split].
  - intros x. rewrite addIds_spec. split; [|now right].
    intros [Hin|H]; [|exact H]. now apply not_elem_of_empty in Hin.
  - intros ->. unfold fetchCounterspellIds, bind.
    now rewrite (paginateIds_complete fetch _ _ _ _ _ _ _ ∅ Hpages Hend Hfuel).
  - intros ->. unfold fetchSpecialGuestsCounterspellIds, bind.
    now rewrite (paginateIds_complete fetch _ _ _ _ _ _ _ ∅ Hpages Hend Hfuel).
Qed.

(** ** [fetchInstantsFromSet] as a whole *)

(** X16. When the main search runs through its pages to the end and the
    three other queries return, [fetchInstantsFromSet] returns the cards
    of the main search followed by the special-guest cards, each marked by
    the union of the two id sets. *)
Theorem X16_instants_assembles_the_queries (fuel : nat) (setCode : string)
    (w w1 w2 w3 w4 : World) (pages : list Response) (url : option string)
    (spgCards : list ScryfallCard) (ids spgIds : gset string) :
  Pages fetch (Some (instantsUrl encodeURIComponent setCode)) w pages url w1 ->
  truthy url = None ->
  (List.length pages <= fuel)%nat ->
  specialGuests fuel setCode w1 = (Returned spgCards, w2) ->
  counterspells fuel setCode w2 = (Returned ids, w3) ->
  specialGuestsCounterspells fuel setCode w3 = (Returned spgIds, w4) ->
  instants fuel setCode w =
  (Returned (List.map (markCounterspell (ids ∪ spgIds))
               (pageCards pages ++ spgCards)), w4).
Proof.
  intros Hpages Hend Hfuel Hspg Hids HspgIds.
  unfold fetchInstantsFromSet, bind at 1.
  rewrite (paginateCards_complete fetch _ _ _ _ _ _ _ [] Hpages Hend Hfuel).
  unfold bind. now rewrite Hspg, Hids, HspgIds.
Qed.

(** X17. A request that the transport rejects, on the first page or on a
    later one, makes the query throw that transport failure; the pages
    read before are not returned. *)
Theorem X17_transport_failure_on_any_page (fuel : nat) (setCode start : string)
    (w w1 w' : World) (pages : list Response) (url : option string)
    (u reason : string) :
  Pages fetch (Some start) w pages url w1 ->
  truthy url = Some u ->
  fetch u w1 = (inr reason, w') ->
  (List.length pages < fuel)%nat ->
  (start = instantsUrl encodeURIComponent setCode ->
     instants fuel setCode w = (Thrown (TransportFailure reason), w')) /\
  (start = specialGuestsUrl encodeURIComponent setCode ->
     specialGuests fuel setCode w = (Thrown (TransportFailure reason), w')) /\
  (start = counterspellUrl encodeURIComponent setCode ->
     counterspells fuel setCode w = (Thrown (TransportFailure reason), w')) /\
  (start = specialGuestsCounterspellUrl encodeURIComponent setCode ->
     specialGuestsCounterspells fuel setCode w =
     (Thrown (TransportFailure reason), w')).
Proof.
  intros Hpages Hu Hf Hfuel.
  assert (forall failure acc,
            paginateCards fetch failure fuel (Some start) acc w =
            (Thrown (TransportFailure reason), w')) as Hcards.
  { intros failure acc.
    replace fuel with (List.length pages + S (fuel - S (List.length pages)))%nat by lia.
    rewrite (paginateCards_Pages fetch failure _ _ _ _ _ Hpages).
    now rewrite (paginateCards_S fetch _ _ _ _ _ _ Hu), Hf. }
  assert (forall failure acc,
            paginateIds fetch failure fuel (Some start) acc w =
            (Thrown (TransportFailure reason), w')) as Hids.
  { intros failure acc.
    replace fuel with (List.length pages + S (fuel - S (List.length pages)))%nat by lia.
    rewrite (paginateIds_Pages fetch failure _ _ _ _ _ Hpages).
    now rewrite (paginateIds_S fetch _ _ _ _ _ _ Hu), Hf. }
  repeat split; intros ->.
  - unfold fetchInstantsFromSet, bind. now rewrite Hcards.
  - unfold fetchSpecialGuestsFromSet, bind. now rewrite Hcards.
  - unfold fetchCounterspellIds, bind. now rewrite Hids.
  - unfold fetchSpecialGuestsCounterspellIds, bind. now rewrite Hids.
Qed.

(** X18. After a main search that ran to its end, an exception thrown by
    any of the three other queries is the outcome of
    [fetchInstantsFromSet]: the cards read so far are not returned. *)
Theorem X18_no_partial_result (fuel : nat) (setCode : string)
    (w w1 w' : World) (pages : list Response) (url : option string) (e : Exn) :
  Pages fetch (Some (instantsUrl encodeURIComponent setCode)) w pages url w1 ->
  truthy url = None ->
  (List.length pages <= fuel)%nat ->
  (specialGuests fuel setCode w1 = (Thrown e, w') ->
     instants fuel setCode w = (Thrown e, w')) /\
  (forall spgCards w2,
     specialGuests fuel setCode w1 = (Returned spgCards, w2) ->
     counterspells fuel setCode w2 = (Thrown e, w') ->
     instants fuel setCode w = (Thrown e, w')) /\
  (forall spgCards w2 ids w3,
     specialGuests fuel setCode w1 = (Returned spgCards, w2) ->
     counterspells fuel setCode w2 = (Returned ids, w3) ->
     specialGuestsCounterspells fuel setCode w3 = (Thrown e, w') ->
     instants fuel setCode w = (Thrown e, w')).
Proof.
  intros Hpages Hend Hfuel.
  repeat split.
  - intros Hspg. unfold fetchInstantsFromSet, bind at 1.
    rewrite (paginateCards_complete fetch _ _ _ _ _ _ _ [] Hpages Hend Hfuel).
    unfold bind. now rewrite Hspg.
  - intros spgCards w2 Hspg Hids. unfold fetchInstantsFromSet, bind at 1.
    rewrite (paginateCards_complete fetch _ _ _ _ _ _ _ [] Hpages Hend Hfuel).
    unfold bind. now rewrite Hspg, Hids.
  - intros spgCards w2 ids w3 Hspg Hids HspgIds.
    unfold fetchInstantsFromSet, bind at 1.
    rewrite (paginateCards_complete fetch _ _ _ _ _ _ _ [] Hpages Hend Hfuel).
    unfold bind. now rewrite Hspg, Hids, HspgIds.
Qed.

End ClientMore.

(** ** The further properties on the sample services *)

Lemma X12_fetchSets_failures_witness :
  remoteNone "https://api.scryfall.com/sets" tt = (inl (refusal 404), tt) /\
  ok (refusal 404) = false /\
  fetchSets sampleTime remoteNone tt = (Thrown (Error "Failed to fetch sets"), tt).
Proof.
  split; [reflexivity|]. split; [reflexivity|].
  exact (proj1 (X12_fetchSets_failures sampleTime remoteNone tt tt)
           (refusal 404) eq_refl eq_refl).
Defined.

Lemma X13_fetchSets_rearranges_stably_witness :
  let kept :=
    List.filter
      (fun set => JS.arr_includes (set_type set) validTypes &&
                  (0 <? card_count set)%Z)
      (data (json_sets (setsPage sampleSets))) in
  remoteSets "https://api.scryfall.com/sets" tt = (inl (setsPage sampleSets), tt) /\
  ok (setsPage sampleSets) = true /\
  (forall set, In set kept -> sampleTime (released_at set) <> None) /\
  exists sets,
    fetchSets sampleTime remoteSets tt = (Returned sets, tt) /\
    Permutation kept sets /\
    forall date,
      List.filter (fun set => timeIs date (sampleTime (released_at set))) sets =
      List.filter (fun set => timeIs date (sampleTime (released_at set))) kept.
Proof.
  intros kept.
  assert (forall set, In set kept -> sampleTime (released_at set) <> None)
    as Hdated.
  { intros set Hin. vm_compute in Hin.
    destruct Hin as [<-|[<-|[<-|[]]]]; discriminate. }
  split; [reflexivity|]. split; [reflexivity|]. split; [exact Hdated|].
  destruct (X13_fetchSets_rearranges_stably sampleTime remoteSets tt tt
              (setsPage sampleSets) eq_refl eq_refl)
    as (sets & Hrun & Hperm & Hstable).
  exists sets. split; [exact Hrun|]. split; [exact Hperm | exact (Hstable Hdated)].
Defined.

Lemma X14_specialGuests_all_pages_witness :
  let pages := [cardsPage [guest] (Some secondPage); cardsPage [swan] None] in
  Pages remotePaged (Some (specialGuestsUrl plainEncode "neo")) tt pages None tt /\
  truthy None = None /\ (List.length pages <= 2)%nat /\
  fetchSpecialGuestsFromSet plainEncode remotePaged 2 "neo" tt =
    (Returned [guest; swan], tt).
Proof.
  intros pages.
  assert (Pages remotePaged (Some (specialGuestsUrl plainEncode "neo")) tt
            pages None tt) as Hpages.
  { econstructor; [reflexivity | reflexivity | reflexivity |].
    econstructor; [reflexivity | reflexivity | reflexivity | constructor]. }
  assert (List.length pages <= 2)%nat as Hfuel by (cbn; lia).
  split; [exact Hpages|]. split; [reflexivity|]. split; [exact Hfuel|].
  exact (X14_specialGuests_all_pages plainEncode remotePaged 2 "neo" tt tt
           pages None Hpages eq_refl Hfuel).
Defined.

Lemma X15_counterspell_ids_exact_witness :
  let pages := [cardsPage [negate] (Some thirdPage); cardsPage [guest] None] in
  Pages remotePaged (Some (counterspellUrl plainEncode "neo")) tt pages None tt /\
  truthy None = None /\ (List.length pages <= 2)%nat /\
  exists ids,
    (forall x, x ∈ ids <-> exists card, In card (pageCards pages) /\ id card = x) /\
    fetchCounterspellIds plainEncode remotePaged 2 "neo" tt = (Returned ids, tt).
Proof.
  intros pages.
  assert (Pages remotePaged (Some (counterspellUrl plainEncode "neo")) tt
            pages None tt) as Hpages.
  { econstructor; [reflexivity | reflexivity | reflexivity |].
    econstructor; [reflexivity | reflexivity | reflexivity | constructor]. }
  assert (List.length pages <= 2)%nat as Hfuel by (cbn; lia).
  split; [exact Hpages|]. split; [reflexivity|]. split; [exact Hfuel|].
  destruct (X15_counterspell_ids_exact plainEncode remotePaged 2 "neo"
              (counterspellUrl plainEncode "neo") tt tt pages None
              Hpages eq_refl Hfuel) as (ids & Hexact & Hrun & _).
  exists ids. split; [exact Hexact | exact (Hrun eq_refl)].
Defined.

Lemma X16_instants_assembles_the_queries_witness :
  let pages := [cardsPage [bolt; negate] None] in
  let ids : gset string := {[ "negate" ]} ∪ {[ "guest" ]} in
  Pages remotePaged (Some (instantsUrl plainEncode "neo")) tt pages None tt /\
  fetchSpecialGuestsFromSet plainEncode remotePaged 2 "neo" tt =
    (Returned [guest; swan], tt) /\
  fetchCounterspellIds plainEncode remotePaged 2 "neo" tt = (Returned ids, tt) /\
  fetchSpecialGuestsCounterspellIds plainEncode remotePaged 2 "neo" tt =
    (Returned ∅, tt) /\
  fetchInstantsFromSet plainEncode remotePaged 2 "neo" tt =
    (Returned (List.map (markCounterspell (ids ∪ ∅))
                 (pageCards pages ++ [guest; swan])), tt).
Proof.
  intros pages ids.
  assert (Pages remotePaged (Some (instantsUrl plainEncode "neo")) tt
            pages None tt) as Hpages
    by (econstructor; [reflexivity | reflexivity | reflexivity | constructor]).
  assert (fetchSpecialGuestsFromSet plainEncode remotePaged 2 "neo" tt =
          (Returned [guest; swan], tt)) as Hspg by (vm_compute; reflexivity).
  assert (fetchCounterspellIds plainEncode remotePaged 2 "neo" tt =
          (Returned ids, tt)) as Hids by (vm_compute; reflexivity).
  assert (fetchSpecialGuestsCounterspellIds plainEncode remotePaged 2 "neo" tt =
          (Returned ∅, tt)) as HspgIds by (vm_compute; reflexivity).
  assert (List.length pages <= 2)%nat as Hfuel by (cbn; lia).
  split; [exact Hpages|]. split; [exact Hspg|]. split; [exact Hids|].
  split; [exact HspgIds|].
  exact (X16_instants_assembles_the_queries plainEncode remotePaged 2 "neo"
           tt tt tt tt tt pages None [guest; swan] ids ∅
           Hpages eq_refl Hfuel Hspg Hids HspgIds).
Defined.

Lemma X17_transport_failure_on_any_page_witness :
  let pages := [cardsPage [bolt] (Some secondPage)] in
  Pages remoteFlaky (Some (instantsUrl plainEncode "neo")) tt pages
    (Some secondPage) tt /\
  truthy (Some secondPage) = Some secondPage /\
  remoteFlaky secondPage tt = (inr "connection reset", tt) /\
  (List.length pages < 2)%nat /\
  fetchInstantsFromSet plainEncode remoteFlaky 2 "neo" tt =
    (Thrown (TransportFailure "connection reset"), tt).
Proof.
  intros pages.
  assert (Pages remoteFlaky (Some (instantsUrl plainEncode "neo")) tt pages
            (Some secondPage) tt) as Hpages
    by (econstructor; [reflexivity | reflexivity | reflexivity | constructor]).
  assert (List.length pages < 2)%nat as Hfuel by (cbn; lia).
  split; [exact Hpages|]. split; [reflexivity|]. split; [reflexivity|].
  split; [exact Hfuel|].
  exact (proj1 (X17_transport_failure_on_any_page plainEncode remoteFlaky 2 "neo"
                  (instantsUrl plainEncode "neo") tt tt tt pages
                  (Some secondPage) secondPage "connection reset"
                  Hpages eq_refl eq_refl Hfuel) eq_refl).
Defined.

Lemma X18_no_partial_result_witness :
  let pages := [cardsPage [bolt] None] in
  let e := Error "Failed to fetch Special Guests cards" in
  Pages remoteGuestsDown (Some (instantsUrl plainEncode "neo")) tt pages None tt /\
  truthy None = None /\ (List.length pages <= 1)%nat /\
  fetchSpecialGuestsFromSet plainEncode remoteGuestsDown 1 "neo" tt = (Thrown e, tt) /\
  fetchInstantsFromSet plainEncode remoteGuestsDown 1 "neo" tt = (Thrown e, tt).
Proof.
  intros pages e.
  assert (Pages remoteGuestsDown (Some (instantsUrl plainEncode "neo")) tt
            pages None tt) as Hpages
    by (econstructor; [reflexivity | reflexivity | reflexivity | constructor]).
  assert (List.length pages <= 1)%nat as Hfuel by (cbn; lia).
  assert (fetchSpecialGuestsFromSet plainEncode remoteGuestsDown 1 "neo" tt =
          (Thrown e, tt)) as Hspg by (vm_compute; reflexivity).
  split; [exact Hpages|]. split; [reflexivity|]. split; [exact Hfuel|].
  split; [exact Hspg|].
  exact (proj1 (X18_no_partial_result plainEncode remoteGuestsDown 1 "neo"
                  tt tt tt pages None e Hpages eq_refl Hfuel) Hspg).
Defined.

(** ** Faces after the first *)

(** X19. Only the first face of a card is consulted for its image and its
    cost: two cards that differ in the faces after the first only have the
    same image URL, the same Phyrexian count, match the same mana values
    and are castable with the same colors. *)
Theorem X19_only_the_first_face_counts (card : ScryfallCard) (face0 : CardFace)
    (rest rest' : list CardFace) (size : option ImageSize) (target : Q)
    (A : list string) :
  card_faces card = Some (face0 :: rest) ->
  let card' := withFaces card (Some (face0 :: rest')) in
  getCardImageUrl card' size = getCardImageUrl card size /\
  countPhyrexianMana card' = countPhyrexianMana card /\
  cardMatchesManaValue card' target = cardMatchesManaValue card target /\
  isCardCastableWithColors card' A = isCardCastableWithColors card A.
Proof.
  intros Hfaces card'.
  assert (resolveManaCost card' = resolveManaCost card) as Hcost
    by (unfold resolveManaCost, card'; cbn; now rewrite Hfaces).
  repeat split.
  - unfold getCardImageUrl, card'. cbn. now rewrite Hfaces.
  - unfold countPhyrexianMana. now rewrite Hcost.
  - unfold cardMatchesManaValue, countPhyrexianMana. now rewrite Hcost.
  - unfold isCardCastableWithColors. now rewrite Hcost.
Qed.

Lemma X19_only_the_first_face_counts_witness :
  let front := pictureFace "https://img/front" "{1}{U}" in
  let back := pictureFace "https://img/back" "{R}" in
  let card := facedCard [front; back] in
  card_faces card = Some [front; back] /\
  getCardImageUrl (withFaces card (Some [front])) None =
    getCardImageUrl card None /\
  getCardImageUrl card None = "https://img/front/normal.jpg" /\
  isCardCastableWithColors (withFaces card (Some [front])) ["U"] =
    isCardCastableWithColors card ["U"].
Proof.
  intros front back card.
  destruct (X19_only_the_first_face_counts card front [back] [] None 2 ["U"]
              eq_refl) as (Himage & _ & _ & Hcast).
  split; [reflexivity|]. split; [exact Himage|]. split; [reflexivity|].
  exact Hcast.
Defined.

(** ** A set without special guests and counterspells *)

(** X20. When the main search runs to its end and each of the three other
    queries gets 404 for its first page, [fetchInstantsFromSet] returns
    the cards of the main search, in their order and with their fields as
    fetched, each flagged as no counterspell. *)
Theorem X20_nothing_but_the_main_search {World : Type}
    (encodeURIComponent : string -> string)
    (fetch : string -> World -> (Response + string) * World)
    (fuel : nat) (setCode : string) (w w1 w2 w3 w4 : World)
    (pages : list Response) (url : option string) (r2 r3 r4 : Response) :
  Pages fetch (Some (instantsUrl encodeURIComponent setCode)) w pages url w1 ->
  truthy url = None ->
  (List.length pages <= fuel)%nat -> (0 < fuel)%nat ->
  fetch (specialGuestsUrl encodeURIComponent setCode) w1 = (inl r2, w2) ->
  fetch (counterspellUrl encodeURIComponent setCode) w2 = (inl r3, w3) ->
  fetch (specialGuestsCounterspellUrl encodeURIComponent setCode) w3 = (inl r4, w4) ->
  ok r2 = false -> ok r3 = false -> ok r4 = false ->
  status r2 = 404%Z -> status r3 = 404%Z -> status r4 = 404%Z ->
  exists cards,
    fetchInstantsFromSet encodeURIComponent fetch fuel setCode w = (Returned cards, w4) /\
    Forall2
      (fun card fetched =>
         isCounterspell card = Some false /\ sameOtherFields card fetched)
      cards (pageCards pages).
Proof.
  intros Hpages Hend Hfuel Hpos Hf2 Hf3 Hf4 Hok2 Hok3 Hok4 Hst2 Hst3 Hst4.
  assert (Refused fetch (Some (specialGuestsUrl encodeURIComponent setCode))
            w1 [] r2 w2) as Href2.
  { exists (Some (specialGuestsUrl encodeURIComponent setCode)),
      (specialGuestsUrl encodeURIComponent setCode), w1.
    split; [constructor|]. split; [reflexivity|]. now split. }
  assert (Refused fetch (Some (counterspellUrl encodeURIComponent setCode))
            w2 [] r3 w3) as Href3.
  { exists (Some (counterspellUrl encodeURIComponent setCode)),
      (counterspellUrl encodeURIComponent setCode), w2.
    split; [constructor|]. split; [reflexivity|]. now split. }
  assert (Refused fetch
            (Some (specialGuestsCounterspellUrl encodeURIComponent setCode))
            w3 [] r4 w4) as Href4.
  { exists (Some (specialGuestsCounterspellUrl encodeURIComponent setCode)),
      (specialGuestsCounterspellUrl encodeURIComponent setCode), w3.
    split; [constructor|]. split; [reflexivity|]. now split. }
  apply Z.eqb_eq in Hst2, Hst3, Hst4.
  assert (fetchSpecialGuestsFromSet encodeURIComponent fetch fuel setCode w1 =
          (Returned [], w2)) as Hspg.
  { rewrite (specialGuests_Refused encodeURIComponent fetch fuel setCode w1 [] r2 w2
               Href2 Hpos). now rewrite Hst2. }
  assert (fetchCounterspellIds encodeURIComponent fetch fuel setCode w2 =
          (Returned (addIds ∅ (pageCards [])), w3)) as Hids.
  { rewrite (counterspells_Refused encodeURIComponent fetch fuel setCode w2 [] r3 w3
               Href3 Hpos). now rewrite Hst3. }
  assert (fetchSpecialGuestsCounterspellIds encodeURIComponent fetch fuel setCode w3 =
          (Returned (addIds ∅ (pageCards [])), w4)) as HspgIds.
  { rewrite (specialGuestsCounterspells_Refused encodeURIComponent fetch fuel setCode
               w3 [] r4 w4 Href4 Hpos). now rewrite Hst4. }
  eexists. split.
  - unfold fetchInstantsFromSet, bind at 1.
    rewrite (paginateCards_complete fetch _ _ _ _ _ _ _ []
               Hpages Hend Hfuel).
    unfold bind. rewrite Hspg, Hids, HspgIds. reflexivity.
  - rewrite app_nil_r. cbn [pageCards flat_map addIds foldl].
    induction (pageCards pages) as [|card rest IH]; cbn [List.map]; constructor;
      [|exact IH].
    split; [|repeat split].
    cbn [isCounterspell markCounterspell]. f_equal.
Qed.

Lemma X20_nothing_but_the_main_search_witness :
  let pages := [cardsPage [bolt; negate] None] in
  Pages remoteBare (Some (instantsUrl plainEncode "neo")) tt pages None tt /\
  remoteBare (specialGuestsUrl plainEncode "neo") tt = (inl (refusal 404), tt) /\
  remoteBare (counterspellUrl plainEncode "neo") tt = (inl (refusal 404), tt) /\
  remoteBare (specialGuestsCounterspellUrl plainEncode "neo") tt =
    (inl (refusal 404), tt) /\
  exists cards,
    fetchInstantsFromSet plainEncode remoteBare 1 "neo" tt = (Returned cards, tt) /\
    Forall2
      (fun card fetched =>
         isCounterspell card = Some false /\ sameOtherFields card fetched)
      cards (pageCards pages).
Proof.
  intros pages.
  assert (Pages remoteBare (Some (instantsUrl plainEncode "neo")) tt pages None tt)
    as Hpages
    by (econstructor; [reflexivity | reflexivity | reflexivity | constructor]).
  split; [exact Hpages|].
  split; [reflexivity|]. split; [reflexivity|]. split; [reflexivity|].
  exact (X20_nothing_but_the_main_search plainEncode remoteBare 1 "neo"
           tt tt tt tt tt pages None (refusal 404) (refusal 404) (refusal 404)
           Hpages eq_refl (le_n 1) (le_n 1) eq_refl eq_refl eq_refl
           eq_refl eq_refl eq_refl eq_refl eq_refl eq_refl).
Defined.
